(** * extract-buildinfo: the section extractor of src/extract-buildinfo.c

    A shallow embedding of [extract_elf_buildinfo], [extract_macho_buildinfo]
    and [main], with the stdio calls they make modelled as explicit state
    passing over a [FILE] value.

    Conventions of the model.
    - The host is little-endian (the source itself relies on it: it compares
      the first four bytes, read as a [uint32_t], with [0x464c457f]).
    - [__APPLE__] is a [platform] value, so both compilations of the file
      are covered by one definition.
    - [malloc] succeeds or fails as an allocator oracle [malloc_ok] says.
    - An access outside an allocated buffer has no defined result in C; the
      model stops there with the outcome [Undefined]. *)

From Stdlib Require Import ZArith List String Ascii Strings.Byte Bool Lia.
Import ListNotations.
Local Open Scope string_scope.
Local Open Scope list_scope.
Local Open Scope Z_scope.

(** ** Bytes, C integers and C strings *)

Definition byte_val (b : byte) : Z := Z.of_N (Byte.to_N b).

(** A little-endian unsigned integer, as the host reads it from memory. *)
Fixpoint le_decode (bs : list byte) : Z :=
  match bs with
  | [] => 0
  | b :: rest => byte_val b + 256 * le_decode rest
  end.

(** [drop off bs]: the bytes of [bs] from index [off] on, none when [off] is
    at or past the end (tested first, so that a large offset is never
    counted out). *)
Definition drop (off : Z) (bs : list byte) : list byte :=
  if Z.of_nat (List.length bs) <=? off then [] else skipn (Z.to_nat off) bs.

(** [slice off len bs]: the [len] bytes of [bs] from index [off]. *)
Definition slice (off len : Z) (bs : list byte) : list byte :=
  firstn (Z.to_nat len) (drop off bs).

(** A struct field of [width] bytes at byte offset [off]. *)
Definition field (off width : Z) (bs : list byte) : Z :=
  le_decode (slice off width bs).

Definition is_nul (b : byte) : bool :=
  match b with x00 => true | _ => false end.

Definition byte_eqb (a b : byte) : bool := Byte.eqb a b.

(** The bytes of a string literal, without its terminator. *)
Definition bytes_of_string (s : string) : list byte := list_byte_of_string s.

(** What [printf("%s", p)] writes: the bytes before the first NUL. *)
Fixpoint c_string (bs : list byte) : list byte :=
  match bs with
  | [] => []
  | b :: rest => if is_nul b then [] else b :: c_string rest
  end.

(** [strcmp(buf + off, lit) == 0], comparing byte after byte and stopping at
    the first difference or at the terminator of [lit].  [None] when a byte
    is needed that lies outside [buf]. *)
Fixpoint strcmp_from (s : list byte) (lit : list byte) : option bool :=
  match lit with
  | [] =>
      match s with
      | [] => None
      | c :: _ => Some (is_nul c)
      end
  | l :: lit' =>
      match s with
      | [] => None
      | c :: s' => if byte_eqb c l then strcmp_from s' lit' else Some false
      end
  end.

Definition strcmp_at (buf : list byte) (off : Z) (lit : string) : option bool :=
  strcmp_from (drop off buf) (bytes_of_string lit).

(** Conversion of a [uint64_t] to [long] (the argument type of [fseek]). *)
Definition to_long (u : Z) : Z :=
  if u <? 2 ^ 63 then u else u - 2 ^ 64.

(** ** The stdio stream *)

Record FILE := mkFILE {
  contents : list byte;   (* the bytes of the open file *)
  position : Z;           (* the file position indicator *)
  reads : nat             (* number of fread calls made so far *)
}.

Definition fopen_rb (bs : list byte) : FILE := mkFILE bs 0 0.

Definition rewind (f : FILE) : FILE :=
  mkFILE (contents f) 0 (reads f).

Definition ftell (f : FILE) : Z := position f.

(** [fseek(f, off, SEEK_SET)].  A negative offset makes the call fail and
    leaves the position where it was; the source ignores the return value.
    Every other offset is taken to be accepted, as it is whenever it is at
    most the length of the file; a file system may refuse an offset far
    past the end, so the results below that name a failure after a seek
    have the seek land inside the file or at its end. *)
Definition fseek (off : Z) (f : FILE) : FILE :=
  if off <? 0 then f else mkFILE (contents f) off (reads f).

(** [fread(buf, size, nmemb, f)]: the bytes stored into [buf], the number of
    complete items, and the stream afterwards. *)
Definition fread (size nmemb : Z) (f : FILE) : list byte * Z * FILE :=
  let avail := Z.max 0 (Z.of_nat (List.length (contents f)) - position f) in
  let got := Z.min (size * nmemb) avail in
  let data := slice (position f) got (contents f) in
  let items := if size =? 0 then 0 else got / size in
  (data, items, mkFILE (contents f) (position f + got) (S (reads f))).

(** ** Outcomes *)

(** How a run ends: [return status] with what went to standard output and
    standard error, or an access outside an allocated buffer. *)
Inductive outcome :=
| Exit (status : Z) (out : list byte) (err : string)
| Undefined (what : string).

Definition fail (msg : string) : outcome := Exit 1 [] msg.

(** One pass through a loop body: fall through to the next iteration, or
    [return] from the enclosing function. *)
Inductive step (S R : Type) :=
| Continue (s : S)
| Return (r : R).
Arguments Continue {S R} s.
Arguments Return {S R} r.

(** [for (k = 0; k < n; k++) body], for a body that does not use [k]: the
    body runs on the state until it returns or [n] passes are done.  The
    count is binary so that a 32-bit bound read from a file costs nothing
    until the passes are actually made; [for_loop_unary] below shows it is
    the usual iteration. *)
Fixpoint for_pos {S R : Type} (body : S -> step S R) (n : positive) (s : S)
  : step S R :=
  match n with
  | xH => body s
  | xO p =>
      match for_pos body p s with
      | Continue s' => for_pos body p s'
      | Return r => Return r
      end
  | xI p =>
      match body s with
      | Continue s1 =>
          match for_pos body p s1 with
          | Continue s2 => for_pos body p s2
          | Return r => Return r
          end
      | Return r => Return r
      end
  end.

Definition for_loop {S R : Type} (n : Z) (body : S -> step S R) (s : S)
  : step S R :=
  match n with
  | Zpos p => for_pos body p s
  | _ => Continue s
  end.

(** The same loop with a unary count. *)
Fixpoint for_nat {S R : Type} (body : S -> step S R) (n : nat) (s : S)
  : step S R :=
  match n with
  | O => Continue s
  | Datatypes.S m =>
      match body s with
      | Continue s' => for_nat body m s'
      | Return r => Return r
      end
  end.

(** ** System header constants

    From <elf.h> and <mach-o/loader.h>, which the source includes. *)

Definition ELFMAG : list byte := [x7f; x45; x4c; x46].   (* "\177ELF" *)
Definition SELFMAG : Z := 4.
Definition sizeof_Elf64_Ehdr : Z := 64.
Definition sizeof_Elf64_Shdr : Z := 64.

Definition MH_MAGIC_64 : Z := 0xfeedfacf.
Definition MH_CIGAM_64 : Z := 0xcffaedfe.
Definition LC_SEGMENT_64 : Z := 0x19.
Definition sizeof_mach_header_64 : Z := 32.
Definition sizeof_load_command : Z := 8.
Definition sizeof_segment_command_64 : Z := 72.
Definition sizeof_section_64 : Z := 80.

(** [Elf64_Ehdr] fields the source reads. *)
Definition e_ident (h : list byte) : list byte := slice 0 16 h.
Definition e_shoff (h : list byte) : Z := field 40 8 h.
Definition e_shnum (h : list byte) : Z := field 60 2 h.
Definition e_shstrndx (h : list byte) : Z := field 62 2 h.

(** [Elf64_Shdr] fields the source reads. *)
Definition sh_name (s : list byte) : Z := field 0 4 s.
Definition sh_offset (s : list byte) : Z := field 24 8 s.
Definition sh_size (s : list byte) : Z := field 32 8 s.

(** [mach_header_64], [load_command], [segment_command_64], [section_64]. *)
Definition mh_magic (h : list byte) : Z := field 0 4 h.
Definition mh_ncmds (h : list byte) : Z := field 16 4 h.
Definition lc_cmd (c : list byte) : Z := field 0 4 c.
Definition lc_cmdsize (c : list byte) : Z := field 4 4 c.
Definition seg_nsects (s : list byte) : Z := field 64 4 s.
Definition sect_sectname (s : list byte) : list byte := slice 0 16 s.
Definition sect_size (s : list byte) : Z := field 40 8 s.
Definition sect_offset (s : list byte) : Z := field 48 4 s.

(** The array of [n] records of [w] bytes held in a buffer. *)
Fixpoint records (n : nat) (w : nat) (buf : list byte) : list (list byte) :=
  match n with
  | O => []
  | Datatypes.S m => firstn w buf :: records m w (skipn w buf)
  end.

Inductive platform := MacOS | OtherOS.

Definition nl : string := String "010"%char EmptyString.

(** A [fprintf(stderr, "...\n")] message. *)
Definition line (s : string) : string := (s ++ nl)%string.

Fixpoint bytes_eqb (a b : list byte) : bool :=
  match a, b with
  | [], [] => true
  | x :: a', y :: b' => byte_eqb x y && bytes_eqb a' b'
  | _, _ => false
  end.

(** ** The two extractors *)

Section Extractors.

Variable os : platform.           (* MacOS: compiled with __APPLE__ defined *)
Variable malloc_ok : Z -> bool.   (* does malloc of that many bytes succeed *)

(** The block both extractors run on a match (lines 74-97 and 156-174):
    [malloc(size + 1)] in 64-bit unsigned arithmetic, [fseek] to the section,
    [fread(data, size, 1, f)], terminate the buffer and [printf("%s", data)].
    [fread] stores what it could read even when the item is incomplete, so a
    buffer smaller than that is overrun. *)
Definition print_section (name : string) (size offset : Z) (f : FILE)
  : outcome * FILE :=
  let cap := (size + 1) mod 2 ^ 64 in
  if negb (malloc_ok cap) then (fail (line "Memory allocation failed"), f)
  else
    let f1 := fseek offset f in
    let '(data, n, f2) := fread size 1 f1 in
    if cap <? Z.of_nat (List.length data) then
      (Undefined "fread past the end of data", f2)
    else if negb (n =? 1) then
      (fail (line ("Failed to read " ++ name ++ " section")), f2)
    else
      (Exit 0 (c_string (data ++ [x00])) "", f2).

(** Lines 71-104: the scan of the section-header array, from the current
    index to [e_shnum]. *)
Fixpoint elf_scan (strtab : list byte) (sections : list (list byte))
  (f : FILE) : outcome * FILE :=
  match sections with
  | [] => (fail (line "No .buildinfo section found in binary"), f)
  | s :: rest =>
      match strcmp_at strtab (sh_name s) ".buildinfo" with
      | None => (Undefined "strcmp past the end of strtab", f)
      | Some true =>
          print_section ".buildinfo" (sh_size s) (to_long (sh_offset s)) f
      | Some false => elf_scan strtab rest f
      end
  end.

Definition extract_elf_buildinfo (f : FILE) : outcome * FILE :=
  match os with
  | MacOS => (fail (line "ELF format not supported on this platform"), f)
  | OtherOS =>
      let f0 := rewind f in
      let '(ehdr, n, f1) := fread sizeof_Elf64_Ehdr 1 f0 in
      if negb (n =? 1) then (fail (line "Failed to read ELF header"), f1)
      else if negb (bytes_eqb (slice 0 SELFMAG (e_ident ehdr)) ELFMAG) then
        (fail (line "Not a valid ELF file"), f1)
      else
        let f2 := fseek (to_long (e_shoff ehdr)) f1 in
        if negb (malloc_ok (e_shnum ehdr * sizeof_Elf64_Shdr)) then
          (fail (line "Memory allocation failed"), f2)
        else
          let '(buf, n, f3) := fread sizeof_Elf64_Shdr (e_shnum ehdr) f2 in
          if negb (n =? e_shnum ehdr) then
            (fail (line "Failed to read section headers"), f3)
          else
            let sections :=
              records (Z.to_nat (e_shnum ehdr))
                      (Z.to_nat sizeof_Elf64_Shdr) buf in
            match nth_error sections (Z.to_nat (e_shstrndx ehdr)) with
            | None => (Undefined "sections[e_shstrndx] past the array", f3)
            | Some shstrtab =>
                if negb (malloc_ok (sh_size shstrtab)) then
                  (fail (line "Memory allocation failed"), f3)
                else
                  let f4 := fseek (to_long (sh_offset shstrtab)) f3 in
                  let '(strtab, n, f5) := fread (sh_size shstrtab) 1 f4 in
                  if negb (n =? 1) then
                    (fail (line "Failed to read string table"), f5)
                  else elf_scan strtab sections f5
            end
  end.

(** Lines 148-175: one pass of the section loop of a segment. *)
Definition macho_section (f : FILE) : step FILE (outcome * FILE) :=
  let '(sect, n, f1) := fread sizeof_section_64 1 f in
  if negb (n =? 1) then Return (fail (line "Failed to read section"), f1)
  else
    match strcmp_at (sect_sectname sect) 0 "__buildinfo" with
    | None => Return (Undefined "strcmp past the end of sectname", f1)
    | Some true =>
        Return (print_section "__buildinfo" (sect_size sect)
                              (sect_offset sect) f1)
    | Some false => Continue f1
    end.

(** Lines 129-179: one pass of the load-command loop. *)
Definition macho_command (f : FILE) : step FILE (outcome * FILE) :=
  let pos := ftell f in
  let '(lc, n, f1) := fread sizeof_load_command 1 f in
  if negb (n =? 1) then Return (fail (line "Failed to read load command"), f1)
  else
    let after :=
      if lc_cmd lc =? LC_SEGMENT_64 then
        let f2 := fseek pos f1 in
        let '(seg, n, f3) := fread sizeof_segment_command_64 1 f2 in
        if negb (n =? 1) then
          Return (fail (line "Failed to read segment command"), f3)
        else for_loop (seg_nsects seg) macho_section f3
      else Continue f1 in
    match after with
    | Continue f4 => Continue (fseek (pos + lc_cmdsize lc) f4)
    | Return r => Return r
    end.

Definition extract_macho_buildinfo (f : FILE) : outcome * FILE :=
  match os with
  | MacOS =>
      let f0 := rewind f in
      let '(mh, n, f1) := fread sizeof_mach_header_64 1 f0 in
      if negb (n =? 1) then (fail (line "Failed to read Mach-O header"), f1)
      else if negb (mh_magic mh =? MH_MAGIC_64) &&
              negb (mh_magic mh =? MH_CIGAM_64) then
        (fail (line "Not a valid 64-bit Mach-O file"), f1)
      else
        match for_loop (mh_ncmds mh) macho_command f1 with
        | Return r => r
        | Continue f2 =>
            (fail (line "No __buildinfo section found in binary"), f2)
        end
  | OtherOS =>
      (fail (line "Mach-O format not supported on this platform"), f)
  end.

(** ** The program *)

(** What [fopen(path, "rb")] finds: the bytes of a file, or no stream, with
    the text [perror] then prints for [errno]. *)
Inductive entry :=
| File (bytes : list byte)
| NoFile (strerror : string).

Definition filesystem := string -> entry.

Inductive callee := Call_extract_elf | Call_extract_macho.

Record run := mkRun {
  result : outcome;          (* exit status, stdout and stderr *)
  calls : list callee;       (* the extractors main has called, in order *)
  closed : option FILE       (* the stream as fclose found it *)
}.

Definition usage (argv0 : string) : string :=
  (line ("Usage: " ++ argv0 ++ " <binary>") ++ line ""
   ++ line "Extract build metadata from a binary compiled with buildinfo support.")%string.

(** [main], with [argv] given as [argv0 :: args] (so [argc = 1 + length args]). *)
Definition main (argv0 : string) (args : list string) (fs : filesystem) : run :=
  match args with
  | [path] =>
      match fs path with
      | NoFile e => mkRun (fail (line ("fopen: " ++ e))) [] None
      | File bytes =>
          let f := fopen_rb bytes in
          let '(m, n, f1) := fread 4 1 f in
          if negb (n =? 1) then
            mkRun (fail (line "Failed to read file magic")) [] (Some f1)
          else
            let magic := le_decode m in
            match os with
            | MacOS =>
                if (magic =? MH_MAGIC_64) || (magic =? MH_CIGAM_64) then
                  let '(r, f2) := extract_macho_buildinfo f1 in
                  mkRun r [Call_extract_macho] (Some f2)
                else
                  mkRun (fail (line "Unknown or unsupported binary format"))
                        [] (Some f1)
            | OtherOS =>
                if magic =? 0x464c457f then
                  let '(r, f2) := extract_elf_buildinfo f1 in
                  mkRun r [Call_extract_elf] (Some f2)
                else
                  mkRun (fail (line "Unknown or unsupported binary format"))
                        [] (Some f1)
            end
      end
  | _ => mkRun (fail (usage argv0)) [] None
  end.

End Extractors.

(** The two container formats, the build that handles each, and the
    extractor and section name that go with it. *)
Inductive format := ELF64 | MachO64.

Definition build_for (fmt : format) : platform :=
  match fmt with ELF64 => OtherOS | MachO64 => MacOS end.

Definition extractor (fmt : format) (os : platform) (malloc_ok : Z -> bool)
  : FILE -> outcome * FILE :=
  match fmt with
  | ELF64 => extract_elf_buildinfo os malloc_ok
  | MachO64 => extract_macho_buildinfo os malloc_ok
  end.

Definition section_name (fmt : format) : string :=
  match fmt with ELF64 => ".buildinfo" | MachO64 => "__buildinfo" end.

(** The size and the [fseek] offset the extractor takes from a section
    record of that format. *)
Definition record_size (fmt : format) (s : list byte) : Z :=
  match fmt with ELF64 => sh_size s | MachO64 => sect_size s end.

Definition record_offset (fmt : format) (s : list byte) : Z :=
  match fmt with ELF64 => to_long (sh_offset s) | MachO64 => sect_offset s end.

(** The magic values [main] compares with in each build, and the extractor
    it then calls. *)
Definition dispatches (os : platform) (magic : Z) : bool :=
  match os with
  | MacOS => (magic =? MH_MAGIC_64) || (magic =? MH_CIGAM_64)
  | OtherOS => magic =? 0x464c457f
  end.

Definition callee_of (os : platform) : callee :=
  match os with MacOS => Call_extract_macho | OtherOS => Call_extract_elf end.

(** The number of passes a loop makes. *)
Fixpoint passes {S R : Type} (body : S -> step S R) (n : nat) (s : S) : nat :=
  match n with
  | O => O
  | Datatypes.S m =>
      match body s with
      | Continue s' => Datatypes.S (passes body m s')
      | Return _ => 1%nat
      end
  end.

(** The bytes of [MH_MAGIC_64] in the host's order, and a file with its
    first four bytes replaced by them. *)
Definition native_magic : list byte := [xcf; xfa; xed; xfe].

Definition with_native_magic (file : list byte) : list byte :=
  native_magic ++ drop 4 file.

(** The stream over that file, at the same position. *)
Definition patched (f : FILE) : FILE :=
  mkFILE (with_native_magic (contents f)) (position f) (reads f).

Definition patched_result (r : outcome * FILE) : outcome * FILE :=
  (fst r, patched (snd r)).

Definition step_map {S R S' R' : Type} (h : S -> S') (hr : R -> R')
  (x : step S R) : step S' R' :=
  match x with
  | Continue s => Continue (h s)
  | Return r => Return (hr r)
  end.

(** The state of a walk over [file]: past the magic. *)
Definition walking (file : list byte) (f : FILE) : Prop :=
  4 <= position f /\ contents f = file.

(** The number of [fread] calls made on a stream, and by the end of a run. *)
Definition cost (f : FILE) : Z := Z.of_nat (reads f).
Definition costR (r : outcome * FILE) : Z := Z.of_nat (reads (snd r)).

(** No 80-byte window of the file that reads as a section record named
    [__buildinfo] points its data into the first four bytes. *)
Definition magic_not_printed (file : list byte) : bool :=
  forallb
    (fun p =>
       let sect := slice (Z.of_nat p) sizeof_section_64 file in
       negb (bytes_eqb (c_string (sect_sectname sect))
                       (bytes_of_string "__buildinfo"))
       || (4 <=? sect_offset sect))
    (seq 0 (List.length file)).

(** ** Outcomes of a run, by where they are produced *)

(** The diagnostics of the two extractors, apart from those of the block
    that prints a section and from the second test of the magic. *)
Definition elf_diagnostics : list string :=
  [line "Failed to read ELF header";
   line "Memory allocation failed";
   line "Failed to read section headers";
   line "Failed to read string table";
   line "No .buildinfo section found in binary"].

Definition macho_diagnostics : list string :=
  [line "Failed to read Mach-O header";
   line "Failed to read load command";
   line "Failed to read segment command";
   line "Failed to read section";
   line "No __buildinfo section found in binary"].

(** The diagnostics a build of the program can print once the file is open. *)
Definition main_diagnostics (os : platform) : list string :=
  line "Failed to read file magic"
  :: line "Unknown or unsupported binary format"
  :: match os with MacOS => macho_diagnostics | OtherOS => elf_diagnostics end.

(** Diagnostics that are in the source and that no run of [main] prints. *)
Definition unreachable_diagnostics : list string :=
  [line "Not a valid ELF file";
   line "Not a valid 64-bit Mach-O file";
   line "ELF format not supported on this platform";
   line "Mach-O format not supported on this platform"].

(** A stream over [file] at a position that is not negative. *)
Definition reading (file : list byte) (f : FILE) : Prop :=
  contents f = file /\ 0 <= position f.

(** An outcome is a failure with one of the diagnostics [msgs], an access
    outside a buffer, or what [print_section] gives on [file]. *)
Inductive emitted (malloc_ok : Z -> bool) (msgs : list string)
  (file : list byte) : outcome -> Prop :=
| emitted_fail (msg : string) :
    In msg msgs -> emitted malloc_ok msgs file (fail msg)
| emitted_undefined (what : string) :
    emitted malloc_ok msgs file (Undefined what)
| emitted_print (name : string) (size offset : Z) (f : FILE) :
    reading file f -> 0 <= size ->
    emitted malloc_ok msgs file
      (fst (print_section malloc_ok name size offset f)).

(** The stream [k] calls to [fread] later, at the same place. *)
Definition later (k : nat) (f : FILE) : FILE :=
  mkFILE (contents f) (position f) (reads f + k).

Definition later_result (k : nat) (r : outcome * FILE) : outcome * FILE :=
  (fst r, later k (snd r)).

(** ** The files as the specification describes them

    These definitions follow the specification's data model, not the code:
    they say what a well-formed file contains, and the theorems compare the
    extractors with them. *)

Module Spec.

(** Name resolution in a string table: the run of bytes from [off] up to the
    first NUL; nothing when [off] is at or beyond the blob's length or no
    NUL follows. *)
Definition name_at (blob : list byte) (off : Z) : option (list byte) :=
  let s := drop off blob in
  if existsb is_nul s then Some (c_string s) else None.

(** The first header, in table order, whose name is [nm]; nothing when a
    name before it does not resolve. *)
Fixpoint first_named (blob nm : list byte) (sections : list (list byte))
  : option (list byte) :=
  match sections with
  | [] => None
  | s :: rest =>
      match name_at blob (sh_name s) with
      | None => None
      | Some n => if bytes_eqb n nm then Some s else first_named blob nm rest
      end
  end.

Definition elf_header (file : list byte) : list byte :=
  slice 0 sizeof_Elf64_Ehdr file.

(** The section-header table: [e_shnum] records from [e_shoff]. *)
Definition elf_sections (file : list byte) : list (list byte) :=
  let h := elf_header file in
  records (Z.to_nat (e_shnum h)) (Z.to_nat sizeof_Elf64_Shdr)
          (slice (e_shoff h) (sizeof_Elf64_Shdr * e_shnum h) file).

(** A well-formed ELF64 file (header, table and string table inside the
    file, [e_shstrndx] an index of the table, names resolving) and its first
    section header named [.buildinfo]. *)
Definition elf_buildinfo (file : list byte) : option (list byte) :=
  let h := elf_header file in
  let len := Z.of_nat (List.length file) in
  if (len <? 2 ^ 63) && (sizeof_Elf64_Ehdr <=? len)
     && bytes_eqb (slice 0 SELFMAG h) ELFMAG
     && (e_shoff h + sizeof_Elf64_Shdr * e_shnum h <=? len)
  then
    match nth_error (elf_sections file) (Z.to_nat (e_shstrndx h)) with
    | Some st =>
        if sh_offset st + sh_size st <=? len then
          first_named (slice (sh_offset st) (sh_size st) file)
                      (bytes_of_string ".buildinfo") (elf_sections file)
        else None
    | None => None
    end
  else None.

(** The content of that section, when it lies inside the file. *)
Definition elf_content (file : list byte) : option (list byte) :=
  match elf_buildinfo file with
  | Some s =>
      if sh_offset s + sh_size s <=? Z.of_nat (List.length file)
      then Some (slice (sh_offset s) (sh_size s) file)
      else None
  | None => None
  end.

(** The name held in a fixed-width field: the bytes before the first NUL,
    all of them when there is none. *)
Definition sect_named (nm : list byte) (sect : list byte) : bool :=
  bytes_eqb (c_string (sect_sectname sect)) nm.

(** The section records of the segment command at [pos]. *)
Definition segment_sections (file : list byte) (pos : Z) : list (list byte) :=
  let nsects := seg_nsects (slice pos sizeof_segment_command_64 file) in
  records (Z.to_nat nsects) (Z.to_nat sizeof_section_64)
          (slice (pos + sizeof_segment_command_64)
                 (sizeof_section_64 * nsects) file).

(** The first section named [nm] in load-command order, walking [n]
    commands from [pos]: a command lies inside the file, a segment command
    carries its section records, and the next command starts [cmdsize]
    bytes after this one. *)
Fixpoint macho_first_section (nm : list byte) (file : list byte) (n : nat)
  (pos : Z) : option (list byte) :=
  match n with
  | O => None
  | S m =>
      let len := Z.of_nat (List.length file) in
      let lc := slice pos sizeof_load_command file in
      if len <? pos + sizeof_load_command then None
      else if lc_cmd lc =? LC_SEGMENT_64 then
        let nsects := seg_nsects (slice pos sizeof_segment_command_64 file) in
        if len <? pos + sizeof_segment_command_64 + sizeof_section_64 * nsects
        then None
        else
          match find (sect_named nm) (segment_sections file pos) with
          | Some s => Some s
          | None => macho_first_section nm file m (pos + lc_cmdsize lc)
          end
      else macho_first_section nm file m (pos + lc_cmdsize lc)
  end.

(** A well-formed Mach-O 64 file in the host's byte order and its first
    section record named [__buildinfo]. *)
Definition macho_buildinfo (file : list byte) : option (list byte) :=
  let h := slice 0 sizeof_mach_header_64 file in
  let len := Z.of_nat (List.length file) in
  if (len <? 2 ^ 63) && (sizeof_mach_header_64 <=? len)
     && (mh_magic h =? MH_MAGIC_64)
  then macho_first_section (bytes_of_string "__buildinfo") file
                           (Z.to_nat (mh_ncmds h)) sizeof_mach_header_64
  else None.

Definition macho_content (file : list byte) : option (list byte) :=
  match macho_buildinfo file with
  | Some s =>
      if sect_offset s + sect_size s <=? Z.of_nat (List.length file)
      then Some (slice (sect_offset s) (sect_size s) file)
      else None
  | None => None
  end.

(** The header of the section-name table of an ELF64 file whose header and
    section-header table lie inside the file. *)
Definition elf_shstrtab_header (file : list byte) : option (list byte) :=
  let h := elf_header file in
  let len := Z.of_nat (List.length file) in
  if (len <? 2 ^ 63) && (sizeof_Elf64_Ehdr <=? len)
     && bytes_eqb (slice 0 SELFMAG h) ELFMAG
     && (e_shoff h + sizeof_Elf64_Shdr * e_shnum h <=? len)
  then nth_error (elf_sections file) (Z.to_nat (e_shstrndx h))
  else None.

(** The section-name table itself, when it is not empty and lies inside the
    file. *)
Definition elf_strtab (file : list byte) : option (list byte) :=
  match elf_shstrtab_header file with
  | Some st =>
      if (0 <? sh_size st)
         && (sh_offset st + sh_size st <=? Z.of_nat (List.length file))
      then Some (slice (sh_offset st) (sh_size st) file)
      else None
  | None => None
  end.

(** Every section name resolves and none is [nm]. *)
Definition none_named (blob nm : list byte) (sections : list (list byte))
  : bool :=
  forallb
    (fun s =>
       match name_at blob (sh_name s) with
       | Some n => negb (bytes_eqb n nm)
       | None => false
       end)
    sections.

(** A well-formed ELF64 file without a section named [.buildinfo]. *)
Definition elf_lacks_buildinfo (file : list byte) : bool :=
  match elf_strtab file with
  | Some blob =>
      none_named blob (bytes_of_string ".buildinfo") (elf_sections file)
  | None => false
  end.

(** [n] load commands from [pos] on lie inside the file, segment commands
    with their section records, and no section is named [nm]. *)
Fixpoint macho_lacks (nm : list byte) (file : list byte) (n : nat) (pos : Z)
  : bool :=
  match n with
  | O => true
  | S m =>
      let len := Z.of_nat (List.length file) in
      let lc := slice pos sizeof_load_command file in
      if len <? pos + sizeof_load_command then false
      else if lc_cmd lc =? LC_SEGMENT_64 then
        let nsects := seg_nsects (slice pos sizeof_segment_command_64 file) in
        if len <? pos + sizeof_segment_command_64 + sizeof_section_64 * nsects
        then false
        else
          match find (sect_named nm) (segment_sections file pos) with
          | Some _ => false
          | None => macho_lacks nm file m (pos + lc_cmdsize lc)
          end
      else macho_lacks nm file m (pos + lc_cmdsize lc)
  end.

(** A well-formed Mach-O 64 file, under either magic, without a section
    named [__buildinfo]. *)
Definition macho_lacks_buildinfo (file : list byte) : bool :=
  let h := slice 0 sizeof_mach_header_64 file in
  (sizeof_mach_header_64 <=? Z.of_nat (List.length file))
  && ((mh_magic h =? MH_MAGIC_64) || (mh_magic h =? MH_CIGAM_64))
  && macho_lacks (bytes_of_string "__buildinfo") file
                 (Z.to_nat (mh_ncmds h)) sizeof_mach_header_64.

(** Both formats at once. *)
Definition first_buildinfo (fmt : format) : list byte -> option (list byte) :=
  match fmt with ELF64 => elf_buildinfo | MachO64 => macho_buildinfo end.

Definition content (fmt : format) : list byte -> option (list byte) :=
  match fmt with ELF64 => elf_content | MachO64 => macho_content end.

End Spec.

(** ** Concrete files *)

Module Fixtures.

Definition byte_of_Z (z : Z) : byte :=
  match Byte.of_N (Z.to_N (z mod 256)) with
  | Some b => b
  | None => x00
  end.

(** [v] as [width] little-endian bytes. *)
Fixpoint le_encode (width : nat) (v : Z) : list byte :=
  match width with
  | O => []
  | S w => byte_of_Z v :: le_encode w (v / 256)
  end.

(** The same value in the other byte order. *)
Definition be_encode (width : nat) (v : Z) : list byte :=
  rev (le_encode width v).

Definition zeros (n : nat) : list byte := repeat x00 n.

(** A string in a fixed-width field, padded with NULs. *)
Definition padded (width : nat) (s : string) : list byte :=
  firstn width (bytes_of_string s ++ zeros width).

Definition always (_ : Z) : bool := true.

(** *** ELF64 *)

Definition Elf64_Ehdr (shoff shnum shstrndx : Z) : list byte :=
  ELFMAG ++ [x02; x01; x01; x00] ++ zeros 8   (* e_ident *)
  ++ le_encode 2 2 ++ le_encode 2 62 ++ le_encode 4 1   (* type machine version *)
  ++ le_encode 8 0 ++ le_encode 8 0                     (* e_entry e_phoff *)
  ++ le_encode 8 shoff
  ++ le_encode 4 0 ++ le_encode 2 64 ++ le_encode 2 0 ++ le_encode 2 0
  ++ le_encode 2 64                                     (* e_shentsize *)
  ++ le_encode 2 shnum ++ le_encode 2 shstrndx.

Definition Elf64_Shdr (name offset size : Z) : list byte :=
  le_encode 4 name ++ le_encode 4 1 ++ le_encode 8 0 ++ le_encode 8 0
  ++ le_encode 8 offset ++ le_encode 8 size
  ++ le_encode 4 0 ++ le_encode 4 0 ++ le_encode 8 1 ++ le_encode 8 0.

(** The section-name table: "", ".shstrtab" at 1, ".buildinfo" at 11. *)
Definition shstrtab : list byte :=
  [x00] ++ bytes_of_string ".shstrtab" ++ [x00]
  ++ bytes_of_string ".buildinfo" ++ [x00].

(** An ELF64 file: header, the payload at 64, the name table after it, and
    three section headers (null, .shstrtab, .buildinfo). *)
Definition elf_with (payload : list byte) : list byte :=
  let n := Z.of_nat (List.length payload) in
  Elf64_Ehdr (64 + n + 22) 3 1
  ++ payload ++ shstrtab
  ++ Elf64_Shdr 0 0 0
  ++ Elf64_Shdr 1 (64 + n) 22
  ++ Elf64_Shdr 11 64 n.

Definition payload : list byte := bytes_of_string "ver=1.2.3".

Definition elf_file : list byte := elf_with payload.
Definition elf_empty : list byte := elf_with [].
Definition nul_payload : list byte :=
  bytes_of_string "ver" ++ [x00] ++ bytes_of_string "1.2.3".

Definition elf_nul : list byte := elf_with nul_payload.

(** *** Mach-O 64

    [enc] writes the multi-byte fields: [le_encode] for a file in the host's
    byte order, [be_encode] for the same file in the other order.  Character
    arrays are the same in both. *)

Definition mach_header_64 (enc : nat -> Z -> list byte) (ncmds sizeofcmds : Z)
  : list byte :=
  enc 4%nat MH_MAGIC_64 ++ enc 4%nat 0x01000007 ++ enc 4%nat 3 ++ enc 4%nat 2
  ++ enc 4%nat ncmds ++ enc 4%nat sizeofcmds ++ enc 4%nat 0 ++ enc 4%nat 0.

(** A command that is not a segment: LC_UUID, [cmdsize] as given. *)
Definition uuid_command (enc : nat -> Z -> list byte) (cmdsize : Z)
  : list byte :=
  enc 4%nat 0x1b ++ enc 4%nat cmdsize ++ zeros 16.

Definition section_64 (enc : nat -> Z -> list byte) (sectname segname : string)
  (size offset : Z) : list byte :=
  padded 16 sectname ++ padded 16 segname
  ++ enc 8%nat 0 ++ enc 8%nat size ++ enc 4%nat offset
  ++ enc 4%nat 0 ++ enc 4%nat 0 ++ enc 4%nat 0 ++ enc 4%nat 0
  ++ enc 4%nat 0 ++ enc 4%nat 0 ++ enc 4%nat 0.

Definition segment_command_64 (enc : nat -> Z -> list byte) (segname : string)
  (sects : list (list byte)) : list byte :=
  let n := Z.of_nat (List.length sects) in
  enc 4%nat LC_SEGMENT_64 ++ enc 4%nat (72 + 80 * n) ++ padded 16 segname
  ++ enc 8%nat 0 ++ enc 8%nat 0 ++ enc 8%nat 0 ++ enc 8%nat 0
  ++ enc 4%nat 7 ++ enc 4%nat 3 ++ enc 4%nat n ++ enc 4%nat 0
  ++ List.concat sects.

(** Header, an LC_UUID command, one segment with the sections [__data] and
    [__buildinfo], then the bytes "abcd" at 288 and the payload at 292. *)
Definition macho_with (enc : nat -> Z -> list byte) (payload : list byte)
  : list byte :=
  mach_header_64 enc 2 256
  ++ uuid_command enc 24
  ++ segment_command_64 enc "__DATA"
       [section_64 enc "__data" "__DATA" 4 288;
        section_64 enc "__buildinfo" "__DATA"
                   (Z.of_nat (List.length payload)) 292]
  ++ bytes_of_string "abcd" ++ payload.

Definition macho_file : list byte := macho_with le_encode payload.
Definition macho_reversed : list byte := macho_with be_encode payload.
Definition macho_empty : list byte := macho_with le_encode [].
Definition macho_nul : list byte := macho_with le_encode nul_payload.

(** Two segments, each with a section [__buildinfo]: "first" at 336 and
    "second" at 341. *)
Definition macho_twice : list byte :=
  mach_header_64 le_encode 2 304
  ++ segment_command_64 le_encode "__DATA"
       [section_64 le_encode "__buildinfo" "__DATA" 5 336]
  ++ segment_command_64 le_encode "__DATA2"
       [section_64 le_encode "__buildinfo" "__DATA2" 6 341]
  ++ bytes_of_string "first" ++ bytes_of_string "second".

(** [macho_twice] with the first of the two sections empty, and with a NUL
    in the first of the two. *)
Definition macho_twice_with (first : list byte) : list byte :=
  mach_header_64 le_encode 2 304
  ++ segment_command_64 le_encode "__DATA"
       [section_64 le_encode "__buildinfo" "__DATA"
                   (Z.of_nat (List.length first)) 336]
  ++ segment_command_64 le_encode "__DATA2"
       [section_64 le_encode "__buildinfo" "__DATA2" 6
                   (336 + Z.of_nat (List.length first))]
  ++ first ++ bytes_of_string "second".

Definition macho_twice_empty : list byte := macho_twice_with [].

Definition macho_twice_nul : list byte :=
  macho_twice_with (bytes_of_string "fi" ++ [x00] ++ bytes_of_string "st").

(** Two sections named [.buildinfo] in one ELF64 file: "first" at 64 and
    "second" at 69; the name table is at 75 and the four headers at 97. *)
Definition elf_twice : list byte :=
  Elf64_Ehdr 97 4 1
  ++ bytes_of_string "first" ++ bytes_of_string "second" ++ shstrtab
  ++ Elf64_Shdr 0 0 0
  ++ Elf64_Shdr 1 75 22
  ++ Elf64_Shdr 11 64 5
  ++ Elf64_Shdr 11 69 6.

(** Three commands declared, the first one with [cmdsize == 0]. *)
Definition macho_stuck : list byte :=
  mach_header_64 le_encode 3 24 ++ uuid_command le_encode 0.

(** A section whose name fills all 16 bytes of [sectname]. *)
Definition macho_fullname : list byte :=
  mach_header_64 le_encode 1 152
  ++ segment_command_64 le_encode "__DATA"
       [section_64 le_encode "__buildinfo_full" "__DATA" 9 184]
  ++ payload.

(** [elf_file] with [e_shstrndx = 3], the number of section headers. *)
Definition elf_bad_shstrndx : list byte :=
  Elf64_Ehdr 95 3 3
  ++ payload ++ shstrtab
  ++ Elf64_Shdr 0 0 0
  ++ Elf64_Shdr 1 73 22
  ++ Elf64_Shdr 11 64 9.

(** [elf_file] with the name offset of the first header set to 22, the
    length of the name table. *)
Definition elf_bad_name : list byte :=
  Elf64_Ehdr 95 3 1
  ++ payload ++ shstrtab
  ++ Elf64_Shdr 22 0 0
  ++ Elf64_Shdr 1 73 22
  ++ Elf64_Shdr 11 64 9.

(** [macho_file] under the other magic: the bytes of [MH_MAGIC_64]
    reversed, every other byte as it was. *)
Definition macho_tagged : list byte := rev native_magic ++ skipn 4 macho_file.

(** An ELF64 file with the sections [.shstrtab] and [.text] only; the name
    table, "", ".shstrtab" at 1, ".text" at 11, is at 68 and the three
    headers at 85. *)
Definition elf_plain : list byte :=
  Elf64_Ehdr 85 3 1
  ++ bytes_of_string "code"
  ++ ([x00] ++ bytes_of_string ".shstrtab" ++ [x00]
      ++ bytes_of_string ".text" ++ [x00])
  ++ Elf64_Shdr 0 0 0
  ++ Elf64_Shdr 1 68 17
  ++ Elf64_Shdr 11 64 4.

(** [elf_file] with the size of [.buildinfo] set to [size]. *)
Definition elf_sized (size : Z) : list byte :=
  Elf64_Ehdr 95 3 1
  ++ payload ++ shstrtab
  ++ Elf64_Shdr 0 0 0
  ++ Elf64_Shdr 1 73 22
  ++ Elf64_Shdr 11 64 size.

(** One section header, the null one, which [e_shstrndx = 0] then names as
    the string table: a table of size zero. *)
Definition elf_empty_strtab : list byte :=
  Elf64_Ehdr 64 1 0 ++ Elf64_Shdr 0 0 0.

(** An ELF64 header alone, declaring no section headers. *)
Definition elf_stripped : list byte := Elf64_Ehdr 0 0 0.

(** A Mach-O 64 file with an LC_UUID command and a segment holding the
    section [__data] only. *)
Definition macho_plain : list byte :=
  mach_header_64 le_encode 2 176
  ++ uuid_command le_encode 24
  ++ segment_command_64 le_encode "__DATA"
       [section_64 le_encode "__data" "__DATA" 4 208]
  ++ bytes_of_string "abcd".

(** A shell script. *)
Definition script : list byte := bytes_of_string "#!/bin/sh".

Definition one_file (bytes : list byte) : filesystem := fun _ => File bytes.

End Fixtures.

(** * Properties *)

(** ** Slicing and decoding *)

Lemma drop_skipn (off : Z) (bs : list byte) :
  drop off bs = skipn (Z.to_nat off) bs.
Proof.
  unfold drop. destruct (Z.leb_spec (Z.of_nat (List.length bs)) off) as [H|H].
  - symmetry. apply skipn_all2. lia.
  - reflexivity.
Qed.

Lemma slice_length (off len : Z) (bs : list byte) :
  0 <= off -> 0 <= len -> off + len <= Z.of_nat (List.length bs) ->
  List.length (slice off len bs) = Z.to_nat len.
Proof.
  intros Ho Hl Hb. unfold slice. rewrite drop_skipn.
  rewrite length_firstn, length_skipn. lia.
Qed.

Lemma slice_slice (a n b m : Z) (bs : list byte) :
  0 <= a -> 0 <= b -> 0 <= m -> b + m <= n ->
  slice b m (slice a n bs) = slice (a + b) m bs.
Proof.
  intros Ha Hb Hm Hbm. unfold slice. rewrite !drop_skipn.
  rewrite skipn_firstn_comm, firstn_firstn, skipn_skipn.
  f_equal; [lia|]. f_equal. lia.
Qed.

Lemma byte_val_range (b : byte) : 0 <= byte_val b < 256.
Proof.
  unfold byte_val. pose proof (Byte.to_N_bounded b) as H. lia.
Qed.

Lemma le_decode_range (bs : list byte) :
  0 <= le_decode bs < 256 ^ Z.of_nat (List.length bs).
Proof.
  induction bs as [|b bs IH].
  - simpl. lia.
  - cbn [le_decode List.length]. rewrite Nat2Z.inj_succ, Z.pow_succ_r by lia.
    pose proof (byte_val_range b). lia.
Qed.

Lemma field_nonneg (off width : Z) (bs : list byte) : 0 <= field off width bs.
Proof. unfold field. apply le_decode_range. Qed.

Lemma field_bound (off width : Z) (bs : list byte) :
  0 <= width -> field off width bs < 256 ^ width.
Proof.
  intros Hw. unfold field.
  pose proof (le_decode_range (slice off width bs)) as [_ H].
  eapply Z.lt_le_trans; [exact H|].
  apply Z.pow_le_mono_r; [lia|].
  unfold slice. rewrite length_firstn. lia.
Qed.

(** ** The stream *)

Lemma fread_full (size nmemb : Z) (f : FILE) :
  0 < size -> 0 <= nmemb -> 0 <= position f ->
  position f + size * nmemb <= Z.of_nat (List.length (contents f)) ->
  fread size nmemb f =
  (slice (position f) (size * nmemb) (contents f), nmemb,
   mkFILE (contents f) (position f + size * nmemb) (S (reads f))).
Proof.
  intros Hs Hn Hp Hlen. unfold fread.
  assert (Hm : 0 <= size * nmemb) by nia.
  rewrite Z.max_r by lia. rewrite Z.min_l by lia.
  destruct (Z.eqb_spec size 0) as [E|_]; [lia|].
  rewrite Z.mul_comm, Z.div_mul by lia. rewrite (Z.mul_comm nmemb). reflexivity.
Qed.

Lemma fread_contents (size nmemb : Z) (f : FILE) :
  contents (snd (fread size nmemb f)) = contents f.
Proof. reflexivity. Qed.

Lemma fread_reads (size nmemb : Z) (f : FILE) :
  reads (snd (fread size nmemb f)) = S (reads f).
Proof. reflexivity. Qed.

Lemma fseek_contents (off : Z) (f : FILE) : contents (fseek off f) = contents f.
Proof. unfold fseek. destruct (off <? 0); reflexivity. Qed.

Lemma fseek_reads (off : Z) (f : FILE) : reads (fseek off f) = reads f.
Proof. unfold fseek. destruct (off <? 0); reflexivity. Qed.

Lemma fseek_nonneg (off : Z) (f : FILE) :
  0 <= off -> fseek off f = mkFILE (contents f) off (reads f).
Proof.
  intros H. unfold fseek. destruct (Z.ltb_spec off 0); [lia|reflexivity].
Qed.

Lemma fseek_position (off : Z) (f : FILE) :
  0 <= off -> position (fseek off f) = off.
Proof.
  intros H. unfold fseek. destruct (Z.ltb_spec off 0); [lia|reflexivity].
Qed.

(** ** Loops *)

Lemma for_nat_add {S R : Type} (body : S -> step S R) (a b : nat) (s : S) :
  for_nat body (a + b) s =
  match for_nat body a s with
  | Continue s' => for_nat body b s'
  | Return r => Return r
  end.
Proof.
  revert s. induction a as [|a IH]; intros s; simpl.
  - reflexivity.
  - destruct (body s) as [s'|r]; [apply IH|reflexivity].
Qed.

Lemma for_pos_unary {S R : Type} (body : S -> step S R) (p : positive) (s : S) :
  for_pos body p s = for_nat body (Pos.to_nat p) s.
Proof.
  revert s. induction p as [p IH|p IH|]; intros s.
  - rewrite Pos2Nat.inj_xI.
    replace (2 * Pos.to_nat p)%nat with (Pos.to_nat p + Pos.to_nat p)%nat by lia.
    cbn [for_pos for_nat].
    destruct (body s) as [s1|r]; [|reflexivity].
    rewrite for_nat_add, <- IH.
    destruct (for_pos body p s1); [apply IH|reflexivity].
  - rewrite Pos2Nat.inj_xO. cbn [for_pos].
    replace (2 * Pos.to_nat p)%nat with (Pos.to_nat p + Pos.to_nat p)%nat by lia.
    rewrite for_nat_add, <- IH.
    destruct (for_pos body p s); [apply IH|reflexivity].
  - simpl. destruct (body s); reflexivity.
Qed.

(** The binary loop is the unary one: [n] passes at most, in order. *)
Lemma for_loop_unary {S R : Type} (n : Z) (body : S -> step S R) (s : S) :
  for_loop n body s = for_nat body (Z.to_nat n) s.
Proof.
  destruct n as [|p|p]; simpl; try reflexivity. apply for_pos_unary.
Qed.

(** An invariant of the state that every pass keeps, and a property of what
    a pass returns, hold of the whole loop. *)
Lemma for_nat_invariant {S R : Type} (P : S -> Prop) (Q : R -> Prop)
  (body : S -> step S R) :
  (forall s, P s ->
     match body s with Continue s' => P s' | Return r => Q r end) ->
  forall n s, P s ->
     match for_nat body n s with Continue s' => P s' | Return r => Q r end.
Proof.
  intros Hbody n. induction n as [|n IH]; intros s Hs; simpl.
  - exact Hs.
  - specialize (Hbody s Hs). destruct (body s) as [s'|r]; [apply IH|]; exact Hbody.
Qed.

Lemma for_loop_invariant {S R : Type} (P : S -> Prop) (Q : R -> Prop)
  (body : S -> step S R) :
  (forall s, P s ->
     match body s with Continue s' => P s' | Return r => Q r end) ->
  forall n s, P s ->
     match for_loop n body s with Continue s' => P s' | Return r => Q r end.
Proof.
  intros Hbody n s Hs. rewrite for_loop_unary.
  apply for_nat_invariant; assumption.
Qed.

(** ** C strings *)

Lemma c_string_terminator (bs : list byte) :
  c_string (bs ++ [x00]) = c_string bs.
Proof.
  induction bs as [|b bs IH]; simpl.
  - reflexivity.
  - destruct (is_nul b); [reflexivity|]. f_equal. exact IH.
Qed.

Lemma c_string_no_nul (bs : list byte) :
  existsb is_nul bs = false -> c_string bs = bs.
Proof.
  induction bs as [|b bs IH]; simpl; intros H.
  - reflexivity.
  - apply orb_false_elim in H as [Hb Hr]. rewrite Hb. f_equal. auto.
Qed.

Lemma byte_eqb_eq (a b : byte) : byte_eqb a b = true <-> a = b.
Proof.
  unfold byte_eqb. split; [apply Byte.byte_dec_bl|apply Byte.byte_dec_lb].
Qed.

Lemma bytes_eqb_eq (a b : list byte) : bytes_eqb a b = true <-> a = b.
Proof.
  revert b. induction a as [|x a IH]; intros [|y b]; simpl;
    try (split; [discriminate|discriminate]); try tauto.
  rewrite andb_true_iff, byte_eqb_eq, IH. split.
  - intros [-> ->]. reflexivity.
  - intros E. injection E. auto.
Qed.

(** [strcmp] against a literal without NUL decides whether the C string at
    the pointer is the literal, provided that C string ends inside the
    buffer ... *)
Lemma strcmp_from_terminated (lit s : list byte) :
  existsb is_nul lit = false -> existsb is_nul s = true ->
  strcmp_from s lit = Some (bytes_eqb (c_string s) lit).
Proof.
  revert s. induction lit as [|l lit IH]; intros [|c s] Hlit Hs;
    try discriminate; simpl in *.
  - destruct (is_nul c); reflexivity.
  - apply orb_false_elim in Hlit as [Hl Hlit].
    destruct (is_nul c) eqn:Hc.
    + destruct (byte_eqb c l) eqn:E; [|reflexivity].
      apply byte_eqb_eq in E. congruence.
    + simpl in Hs. simpl. destruct (byte_eqb c l); [auto|reflexivity].
Qed.

(** ... or the buffer is longer than the literal, terminated or not. *)
Lemma strcmp_from_longer (lit s : list byte) :
  existsb is_nul lit = false -> (List.length lit < List.length s)%nat ->
  strcmp_from s lit = Some (bytes_eqb (c_string s) lit).
Proof.
  revert s. induction lit as [|l lit IH]; intros [|c s] Hlit Hs;
    simpl in *; try lia.
  - destruct (is_nul c); reflexivity.
  - apply orb_false_elim in Hlit as [Hl Hlit].
    destruct (is_nul c) eqn:Hc.
    + destruct (byte_eqb c l) eqn:E; [|reflexivity].
      apply byte_eqb_eq in E. congruence.
    + simpl. destruct (byte_eqb c l); [apply IH; [assumption|lia]|reflexivity].
Qed.

Lemma strcmp_at_name (blob : list byte) (off : Z) (lit : string) (n : list byte) :
  existsb is_nul (bytes_of_string lit) = false ->
  Spec.name_at blob off = Some n ->
  strcmp_at blob off lit = Some (bytes_eqb n (bytes_of_string lit)).
Proof.
  unfold Spec.name_at, strcmp_at. intros Hlit H.
  destruct (existsb is_nul (drop off blob)) eqn:E; [|discriminate].
  injection H as <-. apply strcmp_from_terminated; assumption.
Qed.

(** ** Printing a section *)

Section Printing.

Variable malloc_ok : Z -> bool.

(** With a non-negative offset the outcome depends on the stream only
    through the bytes of the file. *)
Lemma print_section_contents (name : string) (size offset : Z) (f g : FILE) :
  0 <= offset -> contents f = contents g ->
  fst (print_section malloc_ok name size offset f) =
  fst (print_section malloc_ok name size offset g).
Proof.
  intros Ho Hc. unfold print_section.
  destruct (malloc_ok ((size + 1) mod 2 ^ 64)); simpl; [|reflexivity].
  unfold fseek. destruct (Z.ltb_spec offset 0); [lia|].
  unfold fread; cbn [contents position reads]. rewrite Hc.
  repeat match goal with |- context [if ?c then _ else _] => destruct c end;
    reflexivity.
Qed.

(** A non-empty section inside the file is printed up to its first NUL. *)
Lemma print_section_ok (name : string) (size offset : Z) (f : FILE) :
  0 <= offset -> 0 < size ->
  offset + size <= Z.of_nat (List.length (contents f)) ->
  Z.of_nat (List.length (contents f)) < 2 ^ 63 ->
  malloc_ok (size + 1) = true ->
  fst (print_section malloc_ok name size offset f) =
  Exit 0 (c_string (slice offset size (contents f))) "".
Proof.
  intros Ho Hs Hin Hlen Hm. unfold print_section.
  rewrite Z.mod_small by lia. rewrite Hm. cbn [negb].
  unfold fseek. destruct (Z.ltb_spec offset 0); [lia|].
  rewrite fread_full; cbn [contents position reads]; try lia.
  rewrite Z.mul_1_r, slice_length by lia.
  destruct (Z.ltb_spec (size + 1) (Z.of_nat (Z.to_nat size))); [lia|].
  cbn. rewrite c_string_terminator. reflexivity.
Qed.

Lemma print_section_keeps (name : string) (size offset : Z) (f : FILE) :
  contents (snd (print_section malloc_ok name size offset f)) = contents f.
Proof.
  unfold print_section.
  destruct (negb (malloc_ok ((size + 1) mod 2 ^ 64))); [reflexivity|].
  destruct (fread size 1 (fseek offset f)) as [[data n] f2] eqn:E.
  assert (Hc : contents f2 = contents f).
  { change f2 with (snd (data, n, f2)). rewrite <- E.
    rewrite fread_contents. apply fseek_contents. }
  repeat match goal with |- context [if ?c then _ else _] => destruct c end;
    exact Hc.
Qed.

End Printing.

(** ** The ELF extractor against the specification's view *)

Section ElfRefinement.

Variable malloc_ok : Z -> bool.

Lemma buildinfo_literal_no_nul :
  existsb is_nul (bytes_of_string ".buildinfo") = false
  /\ existsb is_nul (bytes_of_string "__buildinfo") = false.
Proof. split; reflexivity. Qed.

(** The scan stops at the first header named [.buildinfo] and prints that
    section, whatever the headers after it are. *)
Lemma elf_scan_first (strtab : list byte) (sections : list (list byte))
  (s : list byte) (f : FILE) :
  Spec.first_named strtab (bytes_of_string ".buildinfo") sections = Some s ->
  elf_scan malloc_ok strtab sections f =
  print_section malloc_ok ".buildinfo" (sh_size s) (to_long (sh_offset s)) f.
Proof.
  induction sections as [|h rest IH]; simpl; [discriminate|].
  destruct (Spec.name_at strtab (sh_name h)) as [n|] eqn:Hn; [|discriminate].
  rewrite (strcmp_at_name _ _ _ _ (proj1 buildinfo_literal_no_nul) Hn).
  destruct (bytes_eqb n (bytes_of_string ".buildinfo")).
  - intros E. injection E as ->. reflexivity.
  - exact IH.
Qed.

Lemma first_named_blob (blob nm : list byte) (sections : list (list byte))
  (s : list byte) :
  Spec.first_named blob nm sections = Some s -> blob <> [].
Proof.
  destruct sections as [|h rest]; simpl; [discriminate|].
  unfold Spec.name_at. rewrite drop_skipn. intros H E. subst blob.
  rewrite skipn_nil in H. simpl in H. discriminate.
Qed.

Lemma slice_nonempty (off len : Z) (bs : list byte) :
  slice off len bs <> [] -> 0 < len.
Proof.
  unfold slice. destruct len; simpl; try congruence; lia.
Qed.

Lemma to_long_small (u : Z) : u < 2 ^ 63 -> to_long u = u.
Proof. unfold to_long. intros H. destruct (Z.ltb_spec u (2 ^ 63)); lia. Qed.

(** On a well-formed file, when the allocations it needs succeed, the ELF
    extractor ends by printing the first section named [.buildinfo]. *)
Lemma extract_elf_first (file s : list byte) :
  Spec.elf_buildinfo file = Some s ->
  (forall n, n <= Z.of_nat (List.length file) -> malloc_ok n = true) ->
  exists f', contents f' = file /\
    extract_elf_buildinfo OtherOS malloc_ok (fopen_rb file) =
    print_section malloc_ok ".buildinfo" (sh_size s) (to_long (sh_offset s)) f'.
Proof.
  unfold Spec.elf_buildinfo. intros H Hmalloc.
  set (len := Z.of_nat (List.length file)) in *.
  set (h := Spec.elf_header file) in *.
  destruct (len <? 2 ^ 63) eqn:Hlen; [|discriminate].
  destruct (sizeof_Elf64_Ehdr <=? len) eqn:Hhdr; [|discriminate].
  destruct (bytes_eqb (slice 0 SELFMAG h) ELFMAG) eqn:Hmag; [|discriminate].
  destruct (e_shoff h + sizeof_Elf64_Shdr * e_shnum h <=? len) eqn:Htab;
    [|discriminate].
  cbn [andb] in H.
  destruct (nth_error (Spec.elf_sections file) (Z.to_nat (e_shstrndx h)))
    as [st|] eqn:Hst; [|discriminate].
  destruct (sh_offset st + sh_size st <=? len) eqn:Hstr; [|discriminate].
  apply Z.ltb_lt in Hlen. apply Z.leb_le in Hhdr, Htab, Hstr.
  unfold sizeof_Elf64_Ehdr, sizeof_Elf64_Shdr in *.
  pose proof (field_nonneg 40 8 h) as Hshoff. fold (e_shoff h) in Hshoff.
  pose proof (field_nonneg 60 2 h) as Hshnum. fold (e_shnum h) in Hshnum.
  pose proof (field_nonneg 24 8 st) as Hoff. fold (sh_offset st) in Hoff.
  pose proof (field_nonneg 32 8 st) as Hsz. fold (sh_size st) in Hsz.
  assert (Hpos : 0 < sh_size st).
  { apply first_named_blob in H. apply slice_nonempty in H. exact H. }
  unfold extract_elf_buildinfo, rewind, fopen_rb.
  unfold sizeof_Elf64_Ehdr, sizeof_Elf64_Shdr.
  rewrite fread_full; cbn [contents position reads]; fold len; try lia.
  change (slice 0 (64 * 1) file) with h. change (0 + 64 * 1) with 64.
  change (negb (1 =? 1)) with false. cbv iota.
  unfold e_ident. rewrite slice_slice by (unfold SELFMAG; lia).
  change (0 + 0) with 0. rewrite Hmag. cbn [negb].
  rewrite to_long_small by lia.
  unfold fseek. destruct (Z.ltb_spec (e_shoff h) 0); [lia|].
  rewrite Hmalloc by lia. cbn [negb].
  rewrite fread_full; cbn [contents position reads]; fold len; try lia.
  rewrite Z.eqb_refl. cbn [negb].
  change (records (Z.to_nat (e_shnum h)) (Z.to_nat 64)
            (slice (e_shoff h) (64 * e_shnum h) file))
    with (Spec.elf_sections file).
  rewrite Hst. rewrite Hmalloc by lia. cbn [negb].
  rewrite to_long_small by lia.
  destruct (Z.ltb_spec (sh_offset st) 0); [lia|].
  rewrite fread_full; cbn [contents position reads]; fold len; try lia.
  rewrite Z.eqb_refl. cbn [negb]. rewrite Z.mul_1_r.
  rewrite (elf_scan_first _ _ _ _ H).
  eexists. split; [|reflexivity]. reflexivity.
Qed.

End ElfRefinement.

(** ** The Mach-O extractor against the specification's view *)

Lemma slice_firstn (off n m : Z) (bs : list byte) :
  0 <= n <= m -> firstn (Z.to_nat n) (slice off m bs) = slice off n bs.
Proof.
  intros H. unfold slice. rewrite firstn_firstn. f_equal. lia.
Qed.

Lemma slice_skipn (off n m : Z) (bs : list byte) :
  0 <= off -> 0 <= n <= m ->
  skipn (Z.to_nat n) (slice off m bs) = slice (off + n) (m - n) bs.
Proof.
  intros Ho H. unfold slice. rewrite !drop_skipn.
  rewrite skipn_firstn_comm, skipn_skipn. f_equal; [lia|]. f_equal. lia.
Qed.

Section MachoRefinement.

Variable malloc_ok : Z -> bool.

(** The comparison of the 16-byte [sectname] field decides whether the name
    it holds is [__buildinfo]; it needs no byte outside the field. *)
Lemma strcmp_sectname (sect : list byte) :
  List.length (sect_sectname sect) = 16%nat ->
  strcmp_at (sect_sectname sect) 0 "__buildinfo" =
  Some (Spec.sect_named (bytes_of_string "__buildinfo") sect).
Proof.
  intros H. unfold strcmp_at, Spec.sect_named. rewrite drop_skipn. simpl skipn.
  apply strcmp_from_longer; [reflexivity|]. rewrite H. simpl. lia.
Qed.

(** One pass of the section loop, when the record lies inside the file. *)
Lemma macho_section_step (f : FILE) :
  0 <= position f ->
  position f + 80 <= Z.of_nat (List.length (contents f)) ->
  macho_section malloc_ok f =
  let sect := slice (position f) 80 (contents f) in
  let f1 := mkFILE (contents f) (position f + 80) (S (reads f)) in
  if Spec.sect_named (bytes_of_string "__buildinfo") sect
  then Return (print_section malloc_ok "__buildinfo" (sect_size sect)
                             (sect_offset sect) f1)
  else Continue f1.
Proof.
  intros Hp Hl. unfold macho_section, sizeof_section_64.
  rewrite fread_full by lia. rewrite Z.mul_1_r. cbn [Z.eqb Pos.eqb negb].
  rewrite strcmp_sectname; [reflexivity|].
  unfold sect_sectname. rewrite slice_slice by lia.
  rewrite slice_length; [reflexivity| lia | lia | lia].
Qed.

(** The section loop finds the first record of the segment with that name,
    or passes over all of them. *)
Lemma macho_sections_find (k : nat) : forall f : FILE,
  0 <= position f ->
  position f + 80 * Z.of_nat k <= Z.of_nat (List.length (contents f)) ->
  match find (Spec.sect_named (bytes_of_string "__buildinfo"))
             (records k (Z.to_nat 80)
                (slice (position f) (80 * Z.of_nat k) (contents f))) with
  | Some s =>
      exists f', contents f' = contents f /\
        for_nat (macho_section malloc_ok) k f =
        Return (print_section malloc_ok "__buildinfo" (sect_size s)
                              (sect_offset s) f')
  | None =>
      exists f', contents f' = contents f /\
        position f' = position f + 80 * Z.of_nat k /\
        for_nat (macho_section malloc_ok) k f = Continue f'
  end.
Proof.
  induction k as [|k IH]; intros f Hp Hl.
  - simpl. exists f. repeat split. lia.
  - cbn [records find for_nat].
    rewrite macho_section_step by lia. cbv zeta.
    rewrite slice_firstn by lia.
    destruct (Spec.sect_named (bytes_of_string "__buildinfo") (slice (position f) 80 (contents f))).
    + eexists. split; [|reflexivity]. reflexivity.
    + rewrite slice_skipn by lia.
      replace (80 * Z.of_nat (S k) - 80) with (80 * Z.of_nat k) by lia.
      specialize (IH (mkFILE (contents f) (position f + 80) (S (reads f)))).
      cbn [contents position] in IH.
      specialize (IH ltac:(lia) ltac:(lia)).
      destruct (find _ _) as [s|].
      * exact IH.
      * destruct IH as (f' & Hc & Hpos & Hrun).
        exists f'. repeat split; [exact Hc|lia|exact Hrun].
Qed.

(** The load-command loop returns from the first section with that name in
    load-command order; the commands after it play no part. *)
Lemma macho_walk_first (s : list byte) (n : nat) : forall f : FILE,
  0 <= position f ->
  Spec.macho_first_section (bytes_of_string "__buildinfo") (contents f) n (position f) = Some s ->
  exists f', contents f' = contents f /\
    for_nat (macho_command malloc_ok) n f =
    Return (print_section malloc_ok "__buildinfo" (sect_size s)
                          (sect_offset s) f').
Proof.
  induction n as [|n IH]; intros f Hp H; [discriminate|].
  cbn [Spec.macho_first_section] in H. cbv zeta in H.
  unfold sizeof_load_command, sizeof_segment_command_64, sizeof_section_64 in H.
  destruct (Z.ltb_spec (Z.of_nat (List.length (contents f))) (position f + 8))
    as [|Hlc]; [discriminate|].
  cbn [for_nat]. unfold macho_command, ftell.
  unfold sizeof_load_command, sizeof_segment_command_64.
  rewrite fread_full by lia. rewrite Z.mul_1_r. cbn [Z.eqb Pos.eqb negb].
  set (lc := slice (position f) 8 (contents f)) in *.
  pose proof (field_nonneg 4 4 lc) as Hcs. fold (lc_cmdsize lc) in Hcs.
  destruct (lc_cmd lc =? LC_SEGMENT_64).
  - set (seg := slice (position f) 72 (contents f)) in *.
    pose proof (field_nonneg 64 4 seg) as Hns. fold (seg_nsects seg) in Hns.
    destruct (Z.ltb_spec (Z.of_nat (List.length (contents f)))
                (position f + 72 + 80 * seg_nsects seg)) as [|Hseg];
      [discriminate|].
    rewrite (fseek_nonneg (position f)) by lia.
    cbn [contents position reads].
    rewrite fread_full; cbn [contents position reads]; try lia.
    rewrite Z.mul_1_r. fold seg. cbn [Z.eqb Pos.eqb negb].
    rewrite for_loop_unary.
    pose proof (macho_sections_find (Z.to_nat (seg_nsects seg))
                  (mkFILE (contents f) (position f + 72) (S (S (reads f)))))
      as Hfind.
    cbn [contents position] in Hfind. rewrite Z2Nat.id in Hfind by lia.
    specialize (Hfind ltac:(lia) ltac:(lia)).
    unfold Spec.segment_sections in H.
    unfold sizeof_segment_command_64, sizeof_section_64 in H. fold seg in H.
    destruct (find _ _) as [s'|].
    + injection H as ->. destruct Hfind as (f' & Hc & Hrun).
      rewrite Hrun. exists f'. split; [exact Hc|reflexivity].
    + destruct Hfind as (f' & Hc & Hpos & Hrun). rewrite Hrun.
      destruct (IH (fseek (position f + lc_cmdsize lc) f')) as (g & Hg & Hw).
      * rewrite fseek_position; lia.
      * rewrite fseek_contents, fseek_position, Hc by lia. exact H.
      * exists g. rewrite Hg, fseek_contents, Hc. split; [reflexivity|exact Hw].
  - match goal with
    | |- context [for_nat _ n ?g] => destruct (IH g) as (g' & Hg & Hw)
    end.
    + rewrite fseek_position; lia.
    + rewrite fseek_contents, fseek_position by lia. exact H.
    + exists g'. rewrite Hg, fseek_contents. split; [reflexivity|exact Hw].
Qed.

(** On a well-formed file the Mach-O extractor ends by printing the first
    section named [__buildinfo]. *)
Lemma extract_macho_first (file s : list byte) :
  Spec.macho_buildinfo file = Some s ->
  exists f', contents f' = file /\
    extract_macho_buildinfo MacOS malloc_ok (fopen_rb file) =
    print_section malloc_ok "__buildinfo" (sect_size s) (sect_offset s) f'.
Proof.
  unfold Spec.macho_buildinfo, sizeof_mach_header_64. intros H.
  destruct (Z.of_nat (List.length file) <? 2 ^ 63); [|discriminate].
  destruct (Z.leb_spec 32 (Z.of_nat (List.length file))) as [Hh|];
    [|discriminate].
  destruct (mh_magic (slice 0 32 file) =? MH_MAGIC_64) eqn:Hm; [|discriminate].
  cbn [andb] in H.
  unfold extract_macho_buildinfo, rewind, fopen_rb, sizeof_mach_header_64.
  rewrite fread_full; cbn [contents position reads]; try lia.
  change (slice 0 (32 * 1) file) with (slice 0 32 file).
  change (negb (1 =? 1)) with false. cbv iota. rewrite Hm. cbn [negb andb].
  rewrite for_loop_unary.
  pose proof (field_nonneg 16 4 (slice 0 32 file)) as Hn.
  fold (mh_ncmds (slice 0 32 file)) in Hn.
  destruct (macho_walk_first s (Z.to_nat (mh_ncmds (slice 0 32 file)))
              (mkFILE file (0 + 32 * 1) 1)) as (f' & Hc & Hrun).
  - simpl. lia.
  - exact H.
  - rewrite Hrun. exists f'. split; [exact Hc|reflexivity].
Qed.

End MachoRefinement.

(** * What the extractors do with a file *)

Import Fixtures.

(** Either extractor, on a well-formed file of its format, ends by printing
    the first section of the requested name. *)
Lemma extractor_first (fmt : format) (malloc_ok : Z -> bool)
  (file s : list byte) :
  Spec.first_buildinfo fmt file = Some s ->
  (forall n, n <= Z.of_nat (List.length file) -> malloc_ok n = true) ->
  exists f', contents f' = file /\
    extractor fmt (build_for fmt) malloc_ok (fopen_rb file) =
    print_section malloc_ok (section_name fmt) (record_size fmt s)
                  (record_offset fmt s) f'.
Proof.
  destruct fmt; simpl; intros H Hm.
  - apply extract_elf_first; assumption.
  - apply extract_macho_first; assumption.
Qed.

(** C1 (as amended).  For every well-formed ELF64 file with a section named
    [.buildinfo] whose content [B] is not empty, the extractor of a build
    that handles ELF, when its allocations succeed, returns 0 and writes to
    standard output, with nothing added, the bytes of [B] before its first
    NUL: all of [B] when [B] holds no NUL.  The same holds of the Mach-O
    extractor and [__buildinfo]. *)
Theorem extraction_writes_section (fmt : format) (malloc_ok : Z -> bool)
  (file B : list byte) :
  Spec.content fmt file = Some B ->
  B <> [] ->
  (forall n, n <= Z.of_nat (List.length file) + 1 -> malloc_ok n = true) ->
  fst (extractor fmt (build_for fmt) malloc_ok (fopen_rb file)) =
    Exit 0 (c_string B) ""
  /\ (existsb is_nul B = false -> c_string B = B).
Proof.
  intros Hc HB Hm. split; [|apply c_string_no_nul].
  assert (Hfirst : exists s, Spec.first_buildinfo fmt file = Some s /\
            0 <= record_offset fmt s /\
            record_offset fmt s + record_size fmt s
              <= Z.of_nat (List.length file) /\
            Z.of_nat (List.length file) < 2 ^ 63 /\
            B = slice (record_offset fmt s) (record_size fmt s) file).
  { destruct fmt; simpl in *.
    - unfold Spec.elf_content in Hc.
      destruct (Spec.elf_buildinfo file) as [s|] eqn:Hs; [|discriminate].
      destruct (Z.leb_spec (sh_offset s + sh_size s)
                  (Z.of_nat (List.length file))) as [Hin|]; [|discriminate].
      injection Hc as <-.
      assert (Hlen : Z.of_nat (List.length file) < 2 ^ 63).
      { unfold Spec.elf_buildinfo in Hs.
        destruct (Z.ltb_spec (Z.of_nat (List.length file)) (2 ^ 63));
          [assumption|discriminate]. }
      pose proof (field_nonneg 24 8 s) as Ho. fold (sh_offset s) in Ho.
      pose proof (field_nonneg 32 8 s) as Hz. fold (sh_size s) in Hz.
      exists s. rewrite to_long_small by lia. repeat split; try lia.
    - unfold Spec.macho_content in Hc.
      destruct (Spec.macho_buildinfo file) as [s|] eqn:Hs; [|discriminate].
      destruct (Z.leb_spec (sect_offset s + sect_size s)
                  (Z.of_nat (List.length file))) as [Hin|]; [|discriminate].
      injection Hc as <-.
      assert (Hlen : Z.of_nat (List.length file) < 2 ^ 63).
      { unfold Spec.macho_buildinfo in Hs.
        destruct (Z.ltb_spec (Z.of_nat (List.length file)) (2 ^ 63));
          [assumption|discriminate]. }
      pose proof (field_nonneg 48 4 s) as Ho. fold (sect_offset s) in Ho.
      exists s. repeat split; try lia. }
  destruct Hfirst as (s & Hs & Ho & Hin & Hlen & ->).
  destruct (extractor_first fmt malloc_ok file s Hs) as (f' & Hf & ->).
  { intros n Hn. apply Hm. lia. }
  apply slice_nonempty in HB.
  subst file. apply print_section_ok; try assumption. apply Hm. lia.
Qed.

Lemma extraction_writes_section_witness :
  fst (extractor ELF64 OtherOS always (fopen_rb elf_file)) = Exit 0 payload ""
  /\ fst (extractor MachO64 MacOS always (fopen_rb macho_file))
     = Exit 0 payload "".
Proof.
  split.
  - apply (extraction_writes_section ELF64 always elf_file payload).
    + vm_compute. reflexivity.
    + discriminate.
    + reflexivity.
  - apply (extraction_writes_section MachO64 always macho_file payload).
    + vm_compute. reflexivity.
    + discriminate.
    + reflexivity.
Defined.

(** C1 (as stated) fails: an empty section named [.buildinfo] or
    [__buildinfo] makes the extractor return 1 with a read failure, and a
    section holding a NUL is written only up to that byte. *)
Lemma empty_or_nul_section_not_written :
  (Spec.content ELF64 elf_empty = Some []
   /\ fst (extractor ELF64 OtherOS always (fopen_rb elf_empty))
      = Exit 1 [] (line "Failed to read .buildinfo section"))
  /\ (Spec.content MachO64 macho_empty = Some []
      /\ fst (extractor MachO64 MacOS always (fopen_rb macho_empty))
         = Exit 1 [] (line "Failed to read __buildinfo section"))
  /\ (Spec.content ELF64 elf_nul = Some nul_payload
      /\ fst (extractor ELF64 OtherOS always (fopen_rb elf_nul))
         = Exit 0 (bytes_of_string "ver") ""
      /\ bytes_of_string "ver" <> nul_payload)
  /\ (Spec.content MachO64 macho_nul = Some nul_payload
      /\ fst (extractor MachO64 MacOS always (fopen_rb macho_nul))
         = Exit 0 (bytes_of_string "ver") "").
Proof.
  repeat split; try (vm_compute; reflexivity). discriminate.
Qed.

(** A well-formed file is shorter than [2^63] bytes. *)
Lemma first_buildinfo_small (fmt : format) (file s : list byte) :
  Spec.first_buildinfo fmt file = Some s ->
  Z.of_nat (List.length file) < 2 ^ 63.
Proof.
  destruct fmt; simpl.
  - unfold Spec.elf_buildinfo. intros H.
    destruct (Z.ltb_spec (Z.of_nat (List.length file)) (2 ^ 63));
      [assumption|discriminate].
  - unfold Spec.macho_buildinfo. intros H.
    destruct (Z.ltb_spec (Z.of_nat (List.length file)) (2 ^ 63));
      [assumption|discriminate].
Qed.

(** C7 (as amended).  When a section named [__buildinfo] appears in more
    than one segment of a Mach-O 64 file, the extractor returns from the
    section loop at the first of them in load-command order, whatever the
    later commands hold: when that section is not empty and lies inside the
    file, the extractor returns 0 and writes the bytes of that section
    before its first NUL, all of them when it holds none.  Likewise the ELF
    scan with the first header named [.buildinfo] in table order. *)
Theorem first_match_is_written (fmt : format) (malloc_ok : Z -> bool)
  (file s : list byte) :
  Spec.first_buildinfo fmt file = Some s ->
  0 <= record_offset fmt s ->
  0 < record_size fmt s ->
  record_offset fmt s + record_size fmt s <= Z.of_nat (List.length file) ->
  (forall n, n <= Z.of_nat (List.length file) + 1 -> malloc_ok n = true) ->
  let B := slice (record_offset fmt s) (record_size fmt s) file in
  fst (extractor fmt (build_for fmt) malloc_ok (fopen_rb file)) =
    Exit 0 (c_string B) ""
  /\ (existsb is_nul B = false -> c_string B = B).
Proof.
  intros Hs Ho Hsz Hin Hm B. split; [|apply c_string_no_nul].
  pose proof (first_buildinfo_small fmt file s Hs) as Hlen.
  destruct (extractor_first fmt malloc_ok file s Hs) as (f' & Hf & ->).
  { intros n Hn. apply Hm. lia. }
  subst B file. apply print_section_ok; try assumption. apply Hm. lia.
Qed.

Lemma first_match_is_written_witness :
  fst (extractor MachO64 MacOS always (fopen_rb macho_twice))
    = Exit 0 (bytes_of_string "first") ""
  /\ fst (extractor ELF64 OtherOS always (fopen_rb elf_twice))
     = Exit 0 (bytes_of_string "first") "".
Proof.
  split.
  - apply (first_match_is_written MachO64 always macho_twice
             (section_64 le_encode "__buildinfo" "__DATA" 5 336)).
    + vm_compute. reflexivity.
    + vm_compute. discriminate.
    + vm_compute. reflexivity.
    + vm_compute. discriminate.
    + reflexivity.
  - apply (first_match_is_written ELF64 always elf_twice
             (Elf64_Shdr 11 64 5)).
    + vm_compute. reflexivity.
    + vm_compute. discriminate.
    + vm_compute. reflexivity.
    + vm_compute. discriminate.
    + reflexivity.
Defined.

(** C7 (as stated) fails.  In [macho_twice_empty] the first of the two
    sections named [__buildinfo] is empty: the extractor stops at it and
    returns 1 with a read failure, where the claim has it return the (no)
    bytes of that section; the second section, "second", is not looked at.
    In [macho_twice_nul] the first section is "fi", NUL, "st" and only "fi"
    is written. *)
Lemma first_match_not_always_written :
  (Spec.first_buildinfo MachO64 macho_twice_empty
     = Some (section_64 le_encode "__buildinfo" "__DATA" 0 336)
   /\ fst (extractor MachO64 MacOS always (fopen_rb macho_twice_empty))
      = Exit 1 [] (line "Failed to read __buildinfo section"))
  /\ (Spec.first_buildinfo MachO64 macho_twice_nul
        = Some (section_64 le_encode "__buildinfo" "__DATA" 5 336)
      /\ slice 336 5 macho_twice_nul
         = bytes_of_string "fi" ++ [x00] ++ bytes_of_string "st"
      /\ fst (extractor MachO64 MacOS always (fopen_rb macho_twice_nul))
         = Exit 0 (bytes_of_string "fi") ""
      /\ bytes_of_string "fi"
         <> bytes_of_string "fi" ++ [x00] ++ bytes_of_string "st").
Proof.
  repeat split; try (vm_compute; reflexivity). discriminate.
Qed.

(** ** Indices and offsets that are not checked *)

(** C2.  The code does not compare [e_shstrndx] with [e_shnum]: on a file
    whose [e_shstrndx] equals the number of section headers it indexes the
    array past its end, where the claim has it fail with an error. *)
Theorem shstrndx_not_checked :
  e_shnum (Spec.elf_header elf_bad_shstrndx) = 3
  /\ e_shstrndx (Spec.elf_header elf_bad_shstrndx) = 3
  /\ fst (extract_elf_buildinfo OtherOS always (fopen_rb elf_bad_shstrndx))
     = Undefined "sections[e_shstrndx] past the array".
Proof. repeat split; vm_compute; reflexivity. Qed.

(** The same for every file: once the header and the table are read, an
    [e_shstrndx] at or above [e_shnum] is used as an index all the same. *)
Lemma shstrndx_out_of_range (malloc_ok : Z -> bool) (file : list byte) :
  let h := Spec.elf_header file in
  64 <= Z.of_nat (List.length file) ->
  slice 0 SELFMAG h = ELFMAG ->
  e_shoff h < 2 ^ 63 ->
  e_shoff h + 64 * e_shnum h <= Z.of_nat (List.length file) ->
  malloc_ok (e_shnum h * 64) = true ->
  e_shnum h <= e_shstrndx h ->
  fst (extract_elf_buildinfo OtherOS malloc_ok (fopen_rb file))
  = Undefined "sections[e_shstrndx] past the array".
Proof.
  intros h Hlen Hmag Hoff Htab Hm Hidx.
  pose proof (field_nonneg 40 8 h) as Hshoff. fold (e_shoff h) in Hshoff.
  pose proof (field_nonneg 60 2 h) as Hshnum. fold (e_shnum h) in Hshnum.
  unfold extract_elf_buildinfo, rewind, fopen_rb.
  unfold sizeof_Elf64_Ehdr, sizeof_Elf64_Shdr.
  rewrite fread_full; cbn [contents position reads]; try lia.
  change (slice 0 (64 * 1) file) with h. change (0 + 64 * 1) with 64.
  change (negb (1 =? 1)) with false. cbv iota.
  unfold e_ident. rewrite slice_slice by (unfold SELFMAG; lia).
  change (0 + 0) with 0. rewrite Hmag. cbn [bytes_eqb ELFMAG].
  change (negb _) with false at 1. cbv iota.
  rewrite to_long_small by lia. rewrite fseek_nonneg by lia.
  rewrite Hm. cbn [negb].
  rewrite fread_full; cbn [contents position reads]; try lia.
  rewrite Z.eqb_refl. cbn [negb].
  assert (Hnone : forall n w buf k, (n <= k)%nat ->
            nth_error (records n w buf) k = None).
  { intros n w buf k Hk. apply nth_error_None.
    revert buf. clear -Hk. revert k Hk.
    induction n as [|n IH]; intros k Hk buf; simpl; [lia|].
    destruct k as [|k]; [lia|].
    specialize (IH k ltac:(lia) (skipn w buf)). simpl in *. lia. }
  rewrite Hnone by lia. reflexivity.
Qed.

(** C3.  The code does not compare a header's name offset with the length
    of the string table: on a file whose first header has a name offset
    equal to that length, [strcmp] starts past the end of the table, where
    the claim has extraction fail with an error. *)
Theorem name_offset_not_checked :
  sh_name (Elf64_Shdr 22 0 0) = Z.of_nat (List.length shstrtab)
  /\ nth_error (Spec.elf_sections elf_bad_name) 0 = Some (Elf64_Shdr 22 0 0)
  /\ fst (extract_elf_buildinfo OtherOS always (fopen_rb elf_bad_name))
     = Undefined "strcmp past the end of strtab".
Proof. repeat split; vm_compute; reflexivity. Qed.

(** The same for every scan: a name offset at or beyond the length of the
    table, in a header the scan reaches, is dereferenced. *)
Lemma name_offset_out_of_range (malloc_ok : Z -> bool)
  (strtab : list byte) (before : list (list byte)) (s : list byte)
  (rest : list (list byte)) (f : FILE) :
  Forall (fun h => strcmp_at strtab (sh_name h) ".buildinfo" = Some false)
         before ->
  Z.of_nat (List.length strtab) <= sh_name s ->
  elf_scan malloc_ok strtab (before ++ s :: rest) f
  = (Undefined "strcmp past the end of strtab", f).
Proof.
  intros Hb Hs. induction Hb as [|h before Hh _ IH]; simpl.
  - unfold strcmp_at, drop.
    destruct (Z.leb_spec (Z.of_nat (List.length strtab)) (sh_name s)); [|lia].
    reflexivity.
  - rewrite Hh. exact IH.
Qed.

(** ** Dispatch *)

Lemma main_calls (os : platform) (malloc_ok : Z -> bool) (argv0 path : string)
  (fs : filesystem) :
  calls (main os malloc_ok argv0 [path] fs) =
  match fs path with
  | File bytes =>
      if (4 <=? Z.of_nat (List.length bytes))
         && dispatches os (le_decode (slice 0 4 bytes))
      then [callee_of os] else []
  | NoFile _ => []
  end.
Proof.
  unfold main. destruct (fs path) as [bytes|e]; [|reflexivity].
  unfold fopen_rb.
  destruct (Z.leb_spec 4 (Z.of_nat (List.length bytes))) as [H|H].
  - rewrite fread_full; cbn [contents position reads]; try lia.
    change (negb (1 =? 1)) with false. cbv iota. cbn [andb].
    change (4 * 1) with 4.
    destruct os; unfold dispatches, callee_of.
    + destruct ((le_decode (slice 0 4 bytes) =? MH_MAGIC_64)
                || (le_decode (slice 0 4 bytes) =? MH_CIGAM_64));
        [|reflexivity].
      destruct (extract_macho_buildinfo _ _ _); reflexivity.
    + destruct (le_decode (slice 0 4 bytes) =? 0x464c457f); [|reflexivity].
      destruct (extract_elf_buildinfo _ _ _); reflexivity.
  - unfold fread; cbn [contents position reads].
    rewrite Z.max_r, Z.min_r by lia. cbn [Z.eqb].
    rewrite Z.div_small by lia. reflexivity.
Qed.

(** C4.  A build dispatches one container format only.  Compiled for macOS,
    [main] calls the Mach-O extractor on the two 64-bit Mach-O magics and
    nothing otherwise, and [extract_elf_buildinfo] fails whatever the file;
    compiled for another platform, [main] calls the ELF extractor on the ELF
    magic and nothing otherwise, and [extract_macho_buildinfo] fails
    whatever the file.  So a well-formed file of the other format (one the
    other build extracts) is reported as unknown or unsupported. *)
Theorem one_format_per_build :
  (forall malloc_ok f,
     extract_elf_buildinfo MacOS malloc_ok f =
     (fail (line "ELF format not supported on this platform"), f))
  /\ (forall malloc_ok f,
        extract_macho_buildinfo OtherOS malloc_ok f =
        (fail (line "Mach-O format not supported on this platform"), f))
  /\ (forall os malloc_ok argv0 path fs,
        calls (main os malloc_ok argv0 [path] fs) =
        match fs path with
        | File bytes =>
            if (4 <=? Z.of_nat (List.length bytes))
               && dispatches os (le_decode (slice 0 4 bytes))
            then [callee_of os] else []
        | NoFile _ => []
        end)
  /\ (result (main OtherOS always "extract-buildinfo" ["a.out"]
                   (one_file elf_file)) = Exit 0 payload ""
      /\ result (main MacOS always "extract-buildinfo" ["a.out"]
                      (one_file elf_file))
         = Exit 1 [] (line "Unknown or unsupported binary format")
      /\ calls (main MacOS always "extract-buildinfo" ["a.out"]
                     (one_file elf_file)) = [])
  /\ (result (main MacOS always "extract-buildinfo" ["a.out"]
                   (one_file macho_file)) = Exit 0 payload ""
      /\ result (main OtherOS always "extract-buildinfo" ["a.out"]
                      (one_file macho_file))
         = Exit 1 [] (line "Unknown or unsupported binary format")
      /\ calls (main OtherOS always "extract-buildinfo" ["a.out"]
                     (one_file macho_file)) = []).
Proof.
  split; [reflexivity|]. split; [reflexivity|].
  split; [apply main_calls|].
  repeat split; vm_compute; reflexivity.
Qed.

(** ** Unknown formats *)

Lemma byte_val_inj (a b : byte) : byte_val a = byte_val b -> a = b.
Proof.
  unfold byte_val. intros H. apply N2Z.inj in H.
  pose proof (Byte.of_to_N a) as Ha. pose proof (Byte.of_to_N b) as Hb.
  rewrite H in Ha. congruence.
Qed.

Lemma le_decode_inj (a : list byte) : forall b,
  List.length a = List.length b -> le_decode a = le_decode b -> a = b.
Proof.
  induction a as [|x a IH]; intros [|y b] Hlen H; try discriminate.
  - reflexivity.
  - cbn [le_decode] in H. injection Hlen as Hlen.
    pose proof (byte_val_range x). pose proof (byte_val_range y).
    assert (byte_val x = byte_val y /\ le_decode a = le_decode b) as [Hx Hr]
      by lia.
    f_equal; [apply byte_val_inj; exact Hx|apply IH; assumption].
Qed.

(** C8.  A file whose first four bytes are neither the ELF magic nor one of
    the two 64-bit Mach-O magics makes the program, in either build, print
    the unknown-format message and return 1 without calling an extractor. *)
Theorem unknown_magic_rejected (os : platform) (malloc_ok : Z -> bool)
  (argv0 path : string) (fs : filesystem) (bytes : list byte) :
  fs path = File bytes ->
  4 <= Z.of_nat (List.length bytes) ->
  slice 0 4 bytes <> ELFMAG ->
  slice 0 4 bytes <> native_magic ->
  slice 0 4 bytes <> rev native_magic ->
  result (main os malloc_ok argv0 [path] fs)
    = Exit 1 [] (line "Unknown or unsupported binary format")
  /\ calls (main os malloc_ok argv0 [path] fs) = [].
Proof.
  intros Hfs Hlen Helf Hmagic Hcigam.
  assert (Hd : dispatches os (le_decode (slice 0 4 bytes)) = false).
  { assert (Hl : List.length (slice 0 4 bytes) = 4%nat)
      by (rewrite slice_length by lia; reflexivity).
    destruct os; unfold dispatches.
    - apply orb_false_intro; apply Z.eqb_neq; intros E.
      + apply Hmagic. apply le_decode_inj; [exact Hl|exact E].
      + apply Hcigam. apply le_decode_inj; [exact Hl|exact E].
    - apply Z.eqb_neq. intros E.
      apply Helf. apply le_decode_inj; [exact Hl|exact E]. }
  split.
  - unfold main. rewrite Hfs. unfold fopen_rb.
    rewrite fread_full; cbn [contents position reads]; try lia.
    change (negb (1 =? 1)) with false. cbv iota. change (4 * 1) with 4.
    destruct os; unfold dispatches in Hd; rewrite Hd; reflexivity.
  - rewrite main_calls, Hfs, Hd, andb_false_r. reflexivity.
Qed.

Lemma unknown_magic_rejected_witness :
  result (main OtherOS always "extract-buildinfo" ["build.sh"] (one_file script))
    = Exit 1 [] (line "Unknown or unsupported binary format")
  /\ calls (main OtherOS always "extract-buildinfo" ["build.sh"]
                 (one_file script)) = [].
Proof.
  apply (unknown_magic_rejected OtherOS always "extract-buildinfo" "build.sh"
           (one_file script) script).
  - reflexivity.
  - vm_compute. discriminate.
  - vm_compute. discriminate.
  - vm_compute. discriminate.
  - vm_compute. discriminate.
Defined.

(** ** The fixed-width section name *)

Lemma strcmp_from_prefix (lit s : list byte) :
  strcmp_from s lit = strcmp_from (firstn (S (List.length lit)) s) lit.
Proof.
  revert s. induction lit as [|l lit IH]; intros [|c s]; try reflexivity.
  cbn [List.length firstn strcmp_from].
  destruct (byte_eqb c l); [|reflexivity].
  rewrite IH. reflexivity.
Qed.

Lemma bytes_eqb_length (a b : list byte) :
  bytes_eqb a b = true -> List.length a = List.length b.
Proof. intros H. apply bytes_eqb_eq in H. congruence. Qed.

(** C6.  The comparison of the 16-byte [sectname] field of a section record
    with [__buildinfo] looks at the first 12 bytes of the field at most, so
    it never reads past the field; and a name that fills the field with 16
    bytes other than NUL does not match: the section loop goes on to the
    next record. *)
Theorem full_width_name_never_matches (malloc_ok : Z -> bool) (f : FILE) :
  0 <= position f ->
  position f + 80 <= Z.of_nat (List.length (contents f)) ->
  let name := sect_sectname (slice (position f) 80 (contents f)) in
  List.length name = 16%nat
  /\ strcmp_at name 0 "__buildinfo" = strcmp_at (firstn 12 name) 0 "__buildinfo"
  /\ strcmp_at name 0 "__buildinfo" <> None
  /\ (existsb is_nul name = false ->
      strcmp_at name 0 "__buildinfo" = Some false
      /\ macho_section malloc_ok f =
         Continue (mkFILE (contents f) (position f + 80) (S (reads f)))).
Proof.
  intros Hp Hl name.
  assert (Hlen : List.length name = 16%nat).
  { unfold name, sect_sectname. rewrite slice_slice by lia.
    rewrite slice_length; [reflexivity|lia|lia|lia]. }
  subst name. set (sect := slice (position f) 80 (contents f)) in *.
  split; [exact Hlen|]. split; [|split].
  - unfold strcmp_at. rewrite !drop_skipn. simpl skipn.
    apply (strcmp_from_prefix (bytes_of_string "__buildinfo")).
  - rewrite strcmp_sectname by exact Hlen. discriminate.
  - intros Hfull.
    assert (Hno : Spec.sect_named (bytes_of_string "__buildinfo") sect = false).
    { unfold Spec.sect_named. rewrite c_string_no_nul by exact Hfull.
      destruct (bytes_eqb (sect_sectname sect)
                          (bytes_of_string "__buildinfo")) eqn:E;
        [|reflexivity].
      apply bytes_eqb_length in E. rewrite Hlen in E. discriminate. }
    split.
    + rewrite strcmp_sectname by exact Hlen. rewrite Hno. reflexivity.
    + rewrite macho_section_step by assumption. cbv zeta. fold sect.
      rewrite Hno. reflexivity.
Qed.

Lemma full_width_name_never_matches_witness :
  sect_sectname (slice 104 80 macho_fullname)
    = bytes_of_string "__buildinfo_full"
  /\ strcmp_at (bytes_of_string "__buildinfo_full") 0 "__buildinfo" = Some false
  /\ macho_section always (mkFILE macho_fullname 104 2)
     = Continue (mkFILE macho_fullname 184 3).
Proof.
  split; [vm_compute; reflexivity|].
  apply (full_width_name_never_matches always (mkFILE macho_fullname 104 2)).
  - simpl. lia.
  - vm_compute. discriminate.
  - vm_compute. reflexivity.
Defined.

(** ** Termination and cost of the load-command walk *)

Lemma passes_le {S R : Type} (body : S -> step S R) (n : nat) (s : S) :
  (passes body n s <= n)%nat.
Proof.
  revert s. induction n as [|n IH]; intros s; simpl.
  - lia.
  - destruct (body s) as [s'|r]; [specialize (IH s')|]; lia.
Qed.

(** When a pass costs at most [K], [n] passes cost at most [n * K]. *)
Lemma for_nat_cost {S R : Type} (cost : S -> Z) (costR : R -> Z)
  (body : S -> step S R) (K : Z) :
  0 <= K ->
  (forall s, match body s with
             | Continue s' => cost s' <= cost s + K
             | Return r => costR r <= cost s + K
             end) ->
  forall n s, match for_nat body n s with
              | Continue s' => cost s' <= cost s + Z.of_nat n * K
              | Return r => costR r <= cost s + Z.of_nat n * K
              end.
Proof.
  intros HK Hbody n. induction n as [|n IH]; intros s.
  - simpl. lia.
  - cbn [for_nat]. specialize (Hbody s). destruct (body s) as [s'|r].
    + specialize (IH s'). destruct (for_nat body n s'); nia.
    + nia.
Qed.

(** A complete item read is the bytes at the position. *)
Lemma fread_one_data (size : Z) (f : FILE) (d : list byte) (n : Z) (f' : FILE) :
  0 < size -> fread size 1 f = (d, n, f') -> n = 1 ->
  d = slice (position f) size (contents f).
Proof.
  unfold fread. intros Hs E Hn. rewrite Z.mul_1_r in E.
  destruct (Z.eqb_spec size 0); [lia|].
  set (got := Z.min size _) in *.
  injection E. intros _ Hi Hd. clear E. rewrite <- Hd.
  assert (Hg : 0 <= got <= size) by (unfold got; lia).
  destruct (Z.eq_dec got size) as [->|Hne]; [reflexivity|].
  rewrite Z.div_small in Hi by lia. lia.
Qed.

Section Cost.

Variable malloc_ok : Z -> bool.

Lemma print_section_cost (name : string) (size offset : Z) (f : FILE) :
  costR (print_section malloc_ok name size offset f) <= cost f + 1.
Proof.
  unfold costR, cost, print_section.
  destruct (negb (malloc_ok ((size + 1) mod 2 ^ 64))); [simpl; lia|].
  unfold fread. cbv beta iota zeta. rewrite fseek_reads.
  repeat match goal with |- context [if ?c then _ else _] => destruct c end;
    cbn [snd reads]; lia.
Qed.

Lemma macho_section_cost (f : FILE) :
  match macho_section malloc_ok f with
  | Continue f' => cost f' <= cost f + 2
  | Return r => costR r <= cost f + 2
  end.
Proof.
  unfold macho_section, fread. cbv beta iota zeta.
  destruct (negb _); [unfold costR, cost; cbn [snd reads]; lia|].
  destruct (strcmp_at _ _ _) as [[|]|].
  - match goal with
    | |- costR (print_section _ ?n ?s ?o ?g) <= _ =>
        pose proof (print_section_cost n s o g) as H
    end.
    unfold cost in *. cbn [reads] in H. lia.
  - unfold cost. cbn [reads]. lia.
  - unfold costR, cost. cbn [snd reads]. lia.
Qed.

Lemma macho_command_cost (f : FILE) :
  match macho_command malloc_ok f with
  | Continue f' => cost f' <= cost f + 2 ^ 33
  | Return r => costR r <= cost f + 2 ^ 33
  end.
Proof.
  unfold macho_command, ftell.
  destruct (fread sizeof_load_command 1 f) as [[lc n] f1] eqn:E1.
  assert (H1 : cost f1 = cost f + 1).
  { change f1 with (snd (lc, n, f1)). rewrite <- E1. unfold cost.
    rewrite fread_reads. lia. }
  destruct (negb (n =? 1)); [unfold costR; cbn [snd]; fold (cost f1); lia|].
  destruct (lc_cmd lc =? LC_SEGMENT_64).
  - destruct (fread sizeof_segment_command_64 1 (fseek (position f) f1))
      as [[seg n2] f3] eqn:E3.
    assert (H3 : cost f3 = cost f + 2).
    { change f3 with (snd (seg, n2, f3)). rewrite <- E3. unfold cost in *.
      rewrite fread_reads, fseek_reads. lia. }
    destruct (negb (n2 =? 1)); [unfold costR; cbn [snd]; fold (cost f3); lia|].
    rewrite for_loop_unary.
    pose proof (for_nat_cost cost costR (macho_section malloc_ok) 2
                  ltac:(lia) macho_section_cost
                  (Z.to_nat (seg_nsects seg)) f3) as Hloop.
    pose proof (field_bound 64 4 seg ltac:(lia)) as Hb.
    pose proof (field_nonneg 64 4 seg) as Hn. fold (seg_nsects seg) in Hb, Hn.
    change (256 ^ 4) with (2 ^ 32) in Hb.
    rewrite Z2Nat.id in Hloop by lia.
    destruct (for_nat _ _ f3) as [f4|r].
    + unfold cost in *. rewrite fseek_reads. lia.
    + lia.
  - unfold cost in *. rewrite fseek_reads. lia.
Qed.

Lemma extract_macho_cost (f : FILE) :
  costR (extract_macho_buildinfo MacOS malloc_ok f) <=
  cost f + 1 + mh_ncmds (slice 0 32 (contents f)) * 2 ^ 33.
Proof.
  pose proof (field_nonneg 16 4 (slice 0 32 (contents f))) as Hn.
  fold (mh_ncmds (slice 0 32 (contents f))) in Hn.
  unfold extract_macho_buildinfo.
  destruct (fread sizeof_mach_header_64 1 (rewind f)) as [[mh n] f1] eqn:E1.
  assert (H1 : cost f1 = cost f + 1).
  { change f1 with (snd (mh, n, f1)). rewrite <- E1. unfold cost.
    rewrite fread_reads. simpl. lia. }
  destruct (Z.eqb_spec n 1) as [Hn1|Hn1]; cbn [negb];
    [|unfold costR; cbn [snd]; fold (cost f1); nia].
  destruct (negb (mh_magic mh =? MH_MAGIC_64) &&
            negb (mh_magic mh =? MH_CIGAM_64));
    [unfold costR; cbn [snd]; fold (cost f1); nia|].
  assert (Hmh : mh = slice 0 32 (contents f)).
  { apply (fread_one_data 32 (rewind f) mh n f1); [lia|exact E1|exact Hn1]. }
  rewrite for_loop_unary.
  pose proof (for_nat_cost cost costR (macho_command malloc_ok) (2 ^ 33)
                ltac:(lia) macho_command_cost
                (Z.to_nat (mh_ncmds mh)) f1) as Hloop.
  rewrite <- Hmh in *. rewrite Z2Nat.id in Hloop by lia.
  destruct (for_nat _ _ f1) as [f2|r].
  - unfold costR. cbn [snd]. fold (cost f2). lia.
  - lia.
Qed.

End Cost.

(** C9.  The load-command walk of the Mach-O extractor is a loop of at most
    [ncmds] passes, so the extractor returns on every input after a bounded
    number of reads: at most [1 + ncmds * 2^33].  A command with
    [cmdsize == 0] leaves the position where it was and the walk reads the
    same command again, but the count of passes still ends it. *)
Theorem macho_walk_bounded :
  (forall malloc_ok n f,
     for_loop n (macho_command malloc_ok) f =
     for_nat (macho_command malloc_ok) (Z.to_nat n) f
     /\ (passes (macho_command malloc_ok) (Z.to_nat n) f <= Z.to_nat n)%nat)
  /\ (forall malloc_ok f,
        Z.of_nat (reads (snd (extract_macho_buildinfo MacOS malloc_ok f))) <=
        Z.of_nat (reads f) + 1 + mh_ncmds (slice 0 32 (contents f)) * 2 ^ 33)
  /\ (mh_ncmds (slice 0 32 macho_stuck) = 3
      /\ lc_cmdsize (slice 32 8 macho_stuck) = 0
      /\ macho_command always (mkFILE macho_stuck 32 1)
         = Continue (mkFILE macho_stuck 32 2)
      /\ passes (macho_command always) 3 (mkFILE macho_stuck 32 1) = 3%nat
      /\ extract_macho_buildinfo MacOS always (fopen_rb macho_stuck)
         = (fail (line "No __buildinfo section found in binary"),
            mkFILE macho_stuck 32 4)).
Proof.
  split; [|split].
  - intros malloc_ok n f. split; [apply for_loop_unary|apply passes_le].
  - intros malloc_ok f. apply extract_macho_cost.
  - repeat split; vm_compute; reflexivity.
Qed.

(** ** Runs leave the file as it was *)

Section Keeps.

Variable malloc_ok : Z -> bool.

Lemma elf_scan_keeps (strtab : list byte) (sections : list (list byte))
  (f : FILE) :
  contents (snd (elf_scan malloc_ok strtab sections f)) = contents f.
Proof.
  induction sections as [|s rest IH]; simpl; [reflexivity|].
  destruct (strcmp_at strtab (sh_name s) ".buildinfo") as [[|]|].
  - apply print_section_keeps.
  - exact IH.
  - reflexivity.
Qed.

Lemma extract_elf_keeps (os : platform) (f : FILE) :
  contents (snd (extract_elf_buildinfo os malloc_ok f)) = contents f.
Proof.
  unfold extract_elf_buildinfo. destruct os; [reflexivity|].
  unfold fread. cbv beta iota zeta.
  repeat match goal with
         | |- context [if ?c then _ else _] => destruct c
         | |- context [match nth_error ?l ?k with _ => _ end] =>
             destruct (nth_error l k)
         end;
    try rewrite elf_scan_keeps;
    cbn [snd contents]; rewrite ?fseek_contents; reflexivity.
Qed.

Lemma macho_section_keeps (c : list byte) (f : FILE) :
  contents f = c ->
  match macho_section malloc_ok f with
  | Continue f' => contents f' = c
  | Return r => contents (snd r) = c
  end.
Proof.
  intros Hc. unfold macho_section, fread. cbv beta iota zeta.
  destruct (negb _); [exact Hc|].
  destruct (strcmp_at _ _ _) as [[|]|]; try exact Hc.
  rewrite print_section_keeps. exact Hc.
Qed.

Lemma macho_command_keeps (c : list byte) (f : FILE) :
  contents f = c ->
  match macho_command malloc_ok f with
  | Continue f' => contents f' = c
  | Return r => contents (snd r) = c
  end.
Proof.
  intros Hc. unfold macho_command, ftell.
  destruct (fread sizeof_load_command 1 f) as [[lc n] f1] eqn:E1.
  assert (H1 : contents f1 = c).
  { change f1 with (snd (lc, n, f1)). rewrite <- E1, fread_contents.
    exact Hc. }
  destruct (negb (n =? 1)); [exact H1|].
  destruct (lc_cmd lc =? LC_SEGMENT_64).
  - destruct (fread sizeof_segment_command_64 1 (fseek (position f) f1))
      as [[seg n2] f3] eqn:E3.
    assert (H3 : contents f3 = c).
    { change f3 with (snd (seg, n2, f3)).
      rewrite <- E3, fread_contents, fseek_contents. exact H1. }
    destruct (negb (n2 =? 1)); [exact H3|].
    pose proof (for_loop_invariant (fun f => contents f = c)
                  (fun r => contents (snd r) = c)
                  (macho_section malloc_ok) (macho_section_keeps c)
                  (seg_nsects seg) f3 H3) as Hloop.
    destruct (for_loop _ _ f3) as [f4|r]; [rewrite fseek_contents|];
      exact Hloop.
  - rewrite fseek_contents. exact H1.
Qed.

Lemma extract_macho_keeps (os : platform) (f : FILE) :
  contents (snd (extract_macho_buildinfo os malloc_ok f)) = contents f.
Proof.
  unfold extract_macho_buildinfo. destruct os; [|reflexivity].
  destruct (fread sizeof_mach_header_64 1 (rewind f)) as [[mh n] f1] eqn:E1.
  assert (H1 : contents f1 = contents f).
  { change f1 with (snd (mh, n, f1)). rewrite <- E1, fread_contents.
    reflexivity. }
  destruct (negb (n =? 1)); [exact H1|].
  destruct (_ && _); [exact H1|].
  pose proof (for_loop_invariant (fun h => contents h = contents f)
                (fun r => contents (snd r) = contents f)
                (macho_command malloc_ok)
                (macho_command_keeps (contents f)) (mh_ncmds mh) f1 H1)
    as Hloop.
  destruct (for_loop _ _ f1) as [f2|r]; exact Hloop.
Qed.

(** The stream [main] closes holds the bytes [fopen] found. *)
Lemma main_closed (os : platform) (argv0 path : string) (fs : filesystem)
  (f : FILE) :
  closed (main os malloc_ok argv0 [path] fs) = Some f ->
  fs path = File (contents f).
Proof.
  unfold main. destruct (fs path) as [bytes|e]; [|discriminate].
  unfold fread, fopen_rb. cbv beta iota zeta. cbn [contents position reads].
  destruct (negb _).
  - intros H. injection H as <-. reflexivity.
  - destruct os.
    + destruct (_ || _).
      * match goal with
        | |- context [extract_macho_buildinfo ?o ?m ?g] =>
            pose proof (extract_macho_keeps o g) as Hk;
            destruct (extract_macho_buildinfo o m g) as [r f2]
        end.
        intros H. injection H as <-. cbn [snd contents] in Hk. congruence.
      * intros H. injection H as <-. reflexivity.
    + destruct (_ =? _).
      * match goal with
        | |- context [extract_elf_buildinfo ?o ?m ?g] =>
            pose proof (extract_elf_keeps o g) as Hk;
            destruct (extract_elf_buildinfo o m g) as [r f2]
        end.
        intros H. injection H as <-. cbn [snd contents] in Hk. congruence.
      * intros H. injection H as <-. reflexivity.
Qed.

End Keeps.

(** ** Byte order *)

Lemma for_nat_map {S R : Type} (Inv : S -> Prop) (body : S -> step S R)
  (h : S -> S) (hr : R -> R) :
  (forall s, Inv s ->
     body (h s) = step_map h hr (body s)
     /\ match body s with Continue s' => Inv s' | Return _ => True end) ->
  forall n s, Inv s -> for_nat body n (h s) = step_map h hr (for_nat body n s).
Proof.
  intros Hbody n. induction n as [|n IH]; intros s Hs; [reflexivity|].
  cbn [for_nat]. destruct (Hbody s Hs) as [-> Hinv].
  destruct (body s) as [s'|r]; simpl; [apply IH; exact Hinv|reflexivity].
Qed.

Lemma fread_position_le (size nmemb : Z) (f : FILE) :
  0 <= size * nmemb -> position f <= position (snd (fread size nmemb f)).
Proof. intros H. unfold fread. cbn [snd position]. lia. Qed.

(** An item that does not fit in what is left of the file is not read. *)
Lemma fread_short (size : Z) (f : FILE) :
  0 < size -> 0 <= position f ->
  Z.of_nat (List.length (contents f)) < position f + size ->
  snd (fst (fread size 1 f)) = 0.
Proof.
  intros Hs Hp Hl. unfold fread. cbn [fst snd].
  destruct (Z.eqb_spec size 0); [reflexivity|].
  apply Z.div_small. lia.
Qed.

Lemma fread_one_fits (size : Z) (f : FILE) (d : list byte) (n : Z) (f' : FILE) :
  0 < size -> 0 <= position f -> fread size 1 f = (d, n, f') -> n = 1 ->
  position f + size <= Z.of_nat (List.length (contents f)).
Proof.
  intros Hs Hp E Hn.
  destruct (Z.le_gt_cases (position f + size)
              (Z.of_nat (List.length (contents f)))) as [H|H]; [exact H|].
  pose proof (fread_short size f Hs Hp ltac:(lia)) as H0.
  rewrite E in H0. simpl in H0. lia.
Qed.

Section NativeMagic.

Variable malloc_ok : Z -> bool.
Variable file : list byte.
Hypothesis file_header : 32 <= Z.of_nat (List.length file).
Hypothesis file_sections : magic_not_printed file = true.

Lemma with_native_magic_length :
  List.length (with_native_magic file) = List.length file.
Proof.
  unfold with_native_magic. rewrite drop_skipn, length_app, length_skipn.
  simpl. lia.
Qed.

Lemma slice_patched (p n : Z) :
  4 <= p -> slice p n (with_native_magic file) = slice p n file.
Proof.
  intros Hp. unfold slice, with_native_magic. rewrite !drop_skipn.
  f_equal. rewrite skipn_app, skipn_skipn.
  rewrite skipn_all2 by (simpl; lia). simpl List.length. simpl app.
  f_equal. lia.
Qed.

Lemma fread_patched (size nmemb : Z) (f : FILE) :
  walking file f ->
  fread size nmemb (patched f) =
  (fst (fst (fread size nmemb f)), snd (fst (fread size nmemb f)),
   patched (snd (fread size nmemb f))).
Proof.
  intros [Hp Hc]. unfold fread, patched. cbn [contents position reads fst snd].
  rewrite Hc, with_native_magic_length, slice_patched by exact Hp.
  reflexivity.
Qed.

Lemma fseek_patched (off : Z) (f : FILE) :
  fseek off (patched f) = patched (fseek off f).
Proof. unfold fseek. destruct (off <? 0); reflexivity. Qed.

Lemma print_section_patched (name : string) (size offset : Z) (f : FILE) :
  contents f = file -> 4 <= offset ->
  print_section malloc_ok name size offset (patched f) =
  patched_result (print_section malloc_ok name size offset f).
Proof.
  intros Hc Ho. unfold print_section.
  destruct (negb (malloc_ok ((size + 1) mod 2 ^ 64))); [reflexivity|].
  rewrite fseek_patched, fread_patched.
  - destruct (fread size 1 (fseek offset f)) as [[data n] f2].
    cbn [fst snd].
    repeat match goal with |- context [if ?c then _ else _] => destruct c end;
      reflexivity.
  - split; [rewrite fseek_position; lia|rewrite fseek_contents; exact Hc].
Qed.

Lemma macho_section_patched (f : FILE) :
  walking file f ->
  macho_section malloc_ok (patched f) =
    step_map patched patched_result (macho_section malloc_ok f)
  /\ match macho_section malloc_ok f with
     | Continue f' => walking file f'
     | Return _ => True
     end.
Proof.
  intros Hw. pose proof Hw as [Hp Hc]. unfold macho_section.
  rewrite fread_patched by exact Hw.
  pose proof (fread_position_le sizeof_section_64 1 f ltac:(cbv; discriminate))
    as Hpos.
  pose proof (fread_contents sizeof_section_64 1 f) as Hcont.
  destruct (fread sizeof_section_64 1 f) as [[sect n] f1] eqn:E.
  cbn [fst snd] in *.
  destruct (Z.eqb_spec n 1) as [Hn|Hn]; cbn [negb]; [|split; [reflexivity|exact I]].
  unfold sizeof_section_64 in E.
  pose proof (fread_one_data 80 f sect n f1 ltac:(lia) E Hn) as Hd.
  pose proof (fread_one_fits 80 f sect n f1 ltac:(lia) ltac:(lia) E Hn) as Hfit.
  assert (Hlen : List.length (sect_sectname sect) = 16%nat).
  { subst sect. unfold sect_sectname. rewrite slice_slice by lia.
    rewrite slice_length; [reflexivity|lia|lia|lia]. }
  rewrite strcmp_sectname by exact Hlen.
  destruct (Spec.sect_named (bytes_of_string "__buildinfo") sect) eqn:Hnamed.
  - split; [|exact I]. cbn [step_map]. f_equal.
    apply print_section_patched; [congruence|].
    unfold magic_not_printed in file_sections.
    rewrite forallb_forall in file_sections.
    specialize (file_sections (Z.to_nat (position f))).
    rewrite Z2Nat.id in file_sections by lia.
    unfold sizeof_section_64 in file_sections.
    rewrite <- Hc, <- Hd in file_sections.
    unfold Spec.sect_named in Hnamed. rewrite Hnamed in file_sections.
    cbn [negb orb] in file_sections.
    apply Z.leb_le. apply file_sections.
    apply in_seq. lia.
  - split; [reflexivity|]. split; [lia|congruence].
Qed.

Lemma macho_command_patched (f : FILE) :
  walking file f ->
  macho_command malloc_ok (patched f) =
    step_map patched patched_result (macho_command malloc_ok f)
  /\ match macho_command malloc_ok f with
     | Continue f' => walking file f'
     | Return _ => True
     end.
Proof.
  intros Hw. pose proof Hw as [Hp Hc]. unfold macho_command, ftell.
  rewrite fread_patched by exact Hw.
  change (position (patched f)) with (position f).
  pose proof (fread_contents sizeof_load_command 1 f) as Hcont.
  destruct (fread sizeof_load_command 1 f) as [[lc n] f1] eqn:E.
  cbn [fst snd] in *.
  destruct (negb (n =? 1)); [split; [reflexivity|exact I]|].
  pose proof (field_nonneg 4 4 lc) as Hcs. fold (lc_cmdsize lc) in Hcs.
  destruct (lc_cmd lc =? LC_SEGMENT_64).
  - assert (Hw2 : walking file (fseek (position f) f1)).
    { split; [rewrite fseek_position; lia|rewrite fseek_contents; congruence]. }
    rewrite fseek_patched, fread_patched by exact Hw2.
    pose proof (fread_position_le sizeof_segment_command_64 1
                  (fseek (position f) f1) ltac:(cbv; discriminate)) as Hpos.
    pose proof (fread_contents sizeof_segment_command_64 1
                  (fseek (position f) f1)) as Hcont3.
    destruct (fread sizeof_segment_command_64 1 (fseek (position f) f1))
      as [[seg n2] f3] eqn:E3.
    cbn [fst snd] in *.
    destruct (negb (n2 =? 1)); [split; [reflexivity|exact I]|].
    assert (Hw3 : walking file f3).
    { destruct Hw2 as [Hp2 Hc2]. split; [lia|congruence]. }
    rewrite !for_loop_unary.
    rewrite (for_nat_map (walking file) (macho_section malloc_ok) patched
               patched_result macho_section_patched _ f3 Hw3).
    pose proof (for_nat_invariant (fun g => contents g = file)
                  (fun _ => True) (macho_section malloc_ok)) as Hkeep.
    specialize (Hkeep (fun s Hs =>
      match macho_section malloc_ok s as x
        return (match x with Continue s' => contents s' = file
                           | Return r => contents (snd r) = file end ->
                match x with Continue s' => contents s' = file
                           | Return _ => True end)
      with Continue _ => fun H => H | Return _ => fun _ => I end
      (macho_section_keeps malloc_ok file s Hs))
      (Z.to_nat (seg_nsects seg)) f3 (proj2 Hw3)).
    destruct (for_nat (macho_section malloc_ok) _ f3) as [f4|r]; cbn [step_map].
    + rewrite fseek_patched. split; [reflexivity|].
      split; [rewrite fseek_position; lia|rewrite fseek_contents; exact Hkeep].
    + split; [reflexivity|exact I].
  - rewrite fseek_patched. split; [reflexivity|].
    split; [rewrite fseek_position; lia|rewrite fseek_contents; congruence].
Qed.

Lemma native_magic_header :
  mh_magic (slice 0 32 (with_native_magic file)) = MH_MAGIC_64
  /\ mh_ncmds (slice 0 32 (with_native_magic file))
     = mh_ncmds (slice 0 32 file).
Proof.
  assert (Hl := with_native_magic_length). split.
  - unfold mh_magic, field. rewrite slice_slice by lia.
    unfold slice, with_native_magic. rewrite drop_skipn. reflexivity.
  - unfold mh_ncmds, field. rewrite !slice_slice by lia.
    apply f_equal. apply slice_patched. lia.
Qed.

Lemma extract_macho_patched :
  mh_magic (slice 0 32 file) = MH_CIGAM_64 ->
  fst (extract_macho_buildinfo MacOS malloc_ok (fopen_rb file)) =
  fst (extract_macho_buildinfo MacOS malloc_ok
         (fopen_rb (with_native_magic file))).
Proof.
  intros Hmagic. destruct native_magic_header as [Hm Hn].
  assert (Hl := with_native_magic_length).
  unfold extract_macho_buildinfo, rewind, fopen_rb, sizeof_mach_header_64.
  rewrite !fread_full; cbn [contents position reads]; try lia.
  change (negb (1 =? 1)) with false. cbv iota.
  change (32 * 1) with 32. change (0 + 32) with 32.
  rewrite Hmagic, Hm, Hn. cbn [Z.eqb Pos.eqb negb andb MH_MAGIC_64 MH_CIGAM_64].
  rewrite !for_loop_unary.
  assert (Hw : walking file (mkFILE file 32 1)) by (split; [simpl; lia|reflexivity]).
  change (mkFILE (with_native_magic file) 32 1)
    with (patched (mkFILE file 32 1)).
  rewrite (for_nat_map (walking file) (macho_command malloc_ok) patched
             patched_result macho_command_patched _ _ Hw).
  destruct (for_nat (macho_command malloc_ok) _ _) as [f2|[o f2]]; reflexivity.
Qed.

End NativeMagic.

(** No field is swapped after the reverse-endian magic: the outcome of the
    Mach-O extractor on a file under that magic is its outcome on the same
    bytes under the native magic (for a file in which no record named
    [__buildinfo] has its data in the four bytes of the magic). *)
Lemma reverse_magic_read_in_host_order (malloc_ok : Z -> bool)
  (file : list byte) :
  32 <= Z.of_nat (List.length file) ->
  mh_magic (slice 0 32 file) = MH_CIGAM_64 ->
  magic_not_printed file = true ->
  fst (extract_macho_buildinfo MacOS malloc_ok (fopen_rb file)) =
  fst (extract_macho_buildinfo MacOS malloc_ok
         (fopen_rb (with_native_magic file))).
Proof.
  intros Hlen Hmagic Hsect. apply extract_macho_patched; assumption.
Qed.

Lemma reverse_magic_read_in_host_order_witness :
  with_native_magic macho_tagged = macho_file
  /\ fst (extract_macho_buildinfo MacOS always (fopen_rb macho_tagged))
     = Exit 0 payload "".
Proof.
  split; [vm_compute; reflexivity|].
  rewrite (reverse_magic_read_in_host_order always macho_tagged).
  - vm_compute. reflexivity.
  - vm_compute. discriminate.
  - vm_compute. reflexivity.
  - vm_compute. reflexivity.
Defined.

(** C5.  The code accepts the reverse-endian magic and then swaps no byte:
    [macho_reversed] is [macho_file] with every multi-byte field in the
    other byte order, and where the extractor writes the section from
    [macho_file], on [macho_reversed] it accepts the magic, reads [ncmds]
    and [cmdsize] unswapped, seeks about 400 MB past the end of the file and
    fails, where the claim has it return the same section bytes. *)
Theorem reversed_file_not_extracted :
  macho_file = macho_with le_encode payload
  /\ macho_reversed = macho_with be_encode payload
  /\ fst (extract_macho_buildinfo MacOS always (fopen_rb macho_file))
     = Exit 0 payload ""
  /\ mh_magic (slice 0 32 macho_reversed) = MH_CIGAM_64
  /\ mh_ncmds (slice 0 32 macho_reversed) = 0x02000000
  /\ lc_cmdsize (slice 32 8 macho_reversed) = 0x18000000
  /\ fst (extract_macho_buildinfo MacOS always (fopen_rb macho_reversed))
     = Exit 1 [] (line "Failed to read load command").
Proof. repeat split; vm_compute; reflexivity. Qed.

(** * Further properties of the program *)

(** ** Files without the section *)

Section ElfPreamble.

Variable malloc_ok : Z -> bool.

(** The ELF extractor up to the string table: on a file whose header and
    section-header table lie inside it, what remains is the allocation and
    the read of the string table, then the scan. *)
Lemma extract_elf_reaches_strtab (file st : list byte) :
  Spec.elf_shstrtab_header file = Some st ->
  malloc_ok (e_shnum (Spec.elf_header file) * 64) = true ->
  extract_elf_buildinfo OtherOS malloc_ok (fopen_rb file) =
  let h := Spec.elf_header file in
  let f3 := mkFILE file (e_shoff h + 64 * e_shnum h) 2 in
  if negb (malloc_ok (sh_size st)) then
    (fail (line "Memory allocation failed"), f3)
  else
    let '(strtab, n, f5) :=
      fread (sh_size st) 1 (fseek (to_long (sh_offset st)) f3) in
    if negb (n =? 1) then (fail (line "Failed to read string table"), f5)
    else elf_scan malloc_ok strtab (Spec.elf_sections file) f5.
Proof.
  unfold Spec.elf_shstrtab_header. intros H Hm.
  set (len := Z.of_nat (List.length file)) in *.
  set (h := Spec.elf_header file) in *.
  destruct (len <? 2 ^ 63) eqn:Hlen; [|discriminate].
  destruct (sizeof_Elf64_Ehdr <=? len) eqn:Hhdr; [|discriminate].
  destruct (bytes_eqb (slice 0 SELFMAG h) ELFMAG) eqn:Hmag; [|discriminate].
  destruct (e_shoff h + sizeof_Elf64_Shdr * e_shnum h <=? len) eqn:Htab;
    [|discriminate].
  cbn [andb] in H.
  apply Z.ltb_lt in Hlen. apply Z.leb_le in Hhdr, Htab.
  unfold sizeof_Elf64_Ehdr, sizeof_Elf64_Shdr in *.
  pose proof (field_nonneg 40 8 h) as Hshoff. fold (e_shoff h) in Hshoff.
  pose proof (field_nonneg 60 2 h) as Hshnum. fold (e_shnum h) in Hshnum.
  unfold extract_elf_buildinfo, rewind, fopen_rb.
  unfold sizeof_Elf64_Ehdr, sizeof_Elf64_Shdr.
  rewrite fread_full; cbn [contents position reads]; fold len; try lia.
  change (slice 0 (64 * 1) file) with h. change (0 + 64 * 1) with 64.
  change (negb (1 =? 1)) with false. cbv iota.
  unfold e_ident. rewrite slice_slice by (unfold SELFMAG; lia).
  change (0 + 0) with 0. rewrite Hmag. cbn [negb].
  rewrite to_long_small by lia. rewrite fseek_nonneg by lia.
  rewrite Hm. cbn [negb contents reads].
  rewrite fread_full; cbn [contents position reads]; fold len; try lia.
  rewrite Z.eqb_refl. cbn [negb].
  change (records (Z.to_nat (e_shnum h)) (Z.to_nat 64)
            (slice (e_shoff h) (64 * e_shnum h) file))
    with (Spec.elf_sections file).
  rewrite H. reflexivity.
Qed.

(** A scan in which every name resolves and none is [.buildinfo] reaches
    the end of the table. *)
Lemma elf_scan_none (strtab : list byte) (sections : list (list byte))
  (f : FILE) :
  Spec.none_named strtab (bytes_of_string ".buildinfo") sections = true ->
  elf_scan malloc_ok strtab sections f =
  (fail (line "No .buildinfo section found in binary"), f).
Proof.
  unfold Spec.none_named.
  induction sections as [|s rest IH]; simpl; [reflexivity|].
  destruct (Spec.name_at strtab (sh_name s)) as [n|] eqn:Hn; [|discriminate].
  rewrite (strcmp_at_name _ _ _ _ (proj1 buildinfo_literal_no_nul) Hn).
  destruct (bytes_eqb n (bytes_of_string ".buildinfo")); [discriminate|].
  exact IH.
Qed.

End ElfPreamble.

(** X1.  A well-formed ELF64 file in which no section is named [.buildinfo]
    makes the ELF extractor return 1 with "No .buildinfo section found in
    binary" and nothing on standard output. *)
Theorem elf_section_not_found (malloc_ok : Z -> bool) (file : list byte) :
  Spec.elf_lacks_buildinfo file = true ->
  (forall n, n <= Z.of_nat (List.length file) -> malloc_ok n = true) ->
  fst (extract_elf_buildinfo OtherOS malloc_ok (fopen_rb file)) =
  Exit 1 [] (line "No .buildinfo section found in binary").
Proof.
  unfold Spec.elf_lacks_buildinfo, Spec.elf_strtab. intros H Hm.
  destruct (Spec.elf_shstrtab_header file) as [st|] eqn:Hst; [|discriminate].
  destruct (Z.ltb_spec 0 (sh_size st)) as [Hpos|]; [|discriminate].
  destruct (Z.leb_spec (sh_offset st + sh_size st)
              (Z.of_nat (List.length file))) as [Hin|]; [|discriminate].
  cbn [andb] in H.
  pose proof (field_nonneg 24 8 st) as Hoff. fold (sh_offset st) in Hoff.
  assert (Hlen : Z.of_nat (List.length file) < 2 ^ 63
                 /\ e_shoff (Spec.elf_header file)
                    + 64 * e_shnum (Spec.elf_header file)
                    <= Z.of_nat (List.length file)).
  { unfold Spec.elf_shstrtab_header, sizeof_Elf64_Shdr in Hst.
    destruct (Z.ltb_spec (Z.of_nat (List.length file)) (2 ^ 63));
      [|discriminate].
    destruct (sizeof_Elf64_Ehdr <=? _); [|discriminate].
    destruct (bytes_eqb _ _); [|discriminate].
    destruct (Z.leb_spec (e_shoff (Spec.elf_header file)
                          + 64 * e_shnum (Spec.elf_header file))
                (Z.of_nat (List.length file))); [|discriminate].
    split; assumption. }
  destruct Hlen as [Hlen Htab].
  pose proof (field_nonneg 40 8 (Spec.elf_header file)) as Hshoff.
  fold (e_shoff (Spec.elf_header file)) in Hshoff.
  rewrite (extract_elf_reaches_strtab malloc_ok file st Hst) by (apply Hm; lia).
  cbv zeta. rewrite Hm by lia. cbn [negb].
  rewrite to_long_small by lia. rewrite fseek_nonneg by lia.
  rewrite fread_full; cbn [contents position reads]; try lia.
  rewrite Z.eqb_refl. cbn [negb]. rewrite Z.mul_1_r.
  rewrite elf_scan_none by exact H. reflexivity.
Qed.

Lemma elf_section_not_found_witness :
  fst (extract_elf_buildinfo OtherOS always (fopen_rb elf_plain)) =
  Exit 1 [] (line "No .buildinfo section found in binary").
Proof.
  apply (elf_section_not_found always elf_plain).
  - vm_compute. reflexivity.
  - reflexivity.
Defined.

Lemma elf_shstrtab_header_small (file st : list byte) :
  Spec.elf_shstrtab_header file = Some st ->
  Z.of_nat (List.length file) < 2 ^ 63.
Proof.
  unfold Spec.elf_shstrtab_header. intros H.
  destruct (Z.ltb_spec (Z.of_nat (List.length file)) (2 ^ 63));
    [assumption|discriminate].
Qed.

(** X2.  In an ELF64 file whose header and section-header table lie
    inside it, when the section-name table is empty ([sh_size == 0]), or
    starts inside the file (at an offset that is at most the length of the
    file) and runs past its end, the ELF extractor returns 1 with "Failed
    to read string table", provided the two allocations before the read
    succeed: an empty table is a read failure, as [fread(strtab, 0, 1, f)]
    reads no item. *)
Theorem elf_string_table_unreadable (malloc_ok : Z -> bool)
  (file st : list byte) :
  Spec.elf_shstrtab_header file = Some st ->
  sh_size st = 0
  \/ (sh_offset st <= Z.of_nat (List.length file)
      /\ Z.of_nat (List.length file) < sh_offset st + sh_size st) ->
  malloc_ok (e_shnum (Spec.elf_header file) * 64) = true ->
  malloc_ok (sh_size st) = true ->
  fst (extract_elf_buildinfo OtherOS malloc_ok (fopen_rb file)) =
  Exit 1 [] (line "Failed to read string table").
Proof.
  intros Hst Hbad Hm1 Hm2.
  pose proof (elf_shstrtab_header_small file st Hst) as Hsmall.
  rewrite (extract_elf_reaches_strtab malloc_ok file st Hst Hm1).
  cbv zeta. rewrite Hm2. cbn [negb].
  pose proof (field_nonneg 24 8 st) as Hoff. fold (sh_offset st) in Hoff.
  pose proof (field_nonneg 32 8 st) as Hsz. fold (sh_size st) in Hsz.
  destruct Hbad as [Hzero|[Hin Hout]].
  - rewrite Hzero. unfold fread. cbn [Z.eqb negb fst]. reflexivity.
  - rewrite to_long_small by lia. rewrite fseek_nonneg by lia.
    assert (Hpos : 0 < sh_size st) by lia.
    pose proof (fread_short (sh_size st)
                  (mkFILE file (sh_offset st) 2) Hpos Hoff Hout) as Hn.
    cbn [contents reads] in *.
    destruct (fread (sh_size st) 1 _) as [[strtab n] f5].
    cbn [fst snd] in Hn. subst n. reflexivity.
Qed.

Lemma elf_string_table_unreadable_witness :
  fst (extract_elf_buildinfo OtherOS always (fopen_rb elf_empty_strtab)) =
  Exit 1 [] (line "Failed to read string table").
Proof.
  apply (elf_string_table_unreadable always elf_empty_strtab
           (Elf64_Shdr 0 0 0)).
  - vm_compute. reflexivity.
  - left. vm_compute. reflexivity.
  - reflexivity.
  - reflexivity.
Defined.

Section MachoLacks.

Variable malloc_ok : Z -> bool.

(** The walk passes over commands that hold no section of that name. *)
Lemma macho_walk_lacks (n : nat) : forall f : FILE,
  0 <= position f ->
  Spec.macho_lacks (bytes_of_string "__buildinfo") (contents f) n (position f)
    = true ->
  exists f', for_nat (macho_command malloc_ok) n f = Continue f'.
Proof.
  induction n as [|n IH]; intros f Hp H; [exists f; reflexivity|].
  cbn [Spec.macho_lacks] in H. cbv zeta in H.
  unfold sizeof_load_command, sizeof_segment_command_64, sizeof_section_64 in H.
  destruct (Z.ltb_spec (Z.of_nat (List.length (contents f))) (position f + 8))
    as [|Hlc]; [discriminate|].
  cbn [for_nat]. unfold macho_command, ftell.
  unfold sizeof_load_command, sizeof_segment_command_64.
  rewrite fread_full by lia. rewrite Z.mul_1_r. cbn [Z.eqb Pos.eqb negb].
  set (lc := slice (position f) 8 (contents f)) in *.
  pose proof (field_nonneg 4 4 lc) as Hcs. fold (lc_cmdsize lc) in Hcs.
  destruct (lc_cmd lc =? LC_SEGMENT_64).
  - set (seg := slice (position f) 72 (contents f)) in *.
    pose proof (field_nonneg 64 4 seg) as Hns. fold (seg_nsects seg) in Hns.
    destruct (Z.ltb_spec (Z.of_nat (List.length (contents f)))
                (position f + 72 + 80 * seg_nsects seg)) as [|Hseg];
      [discriminate|].
    rewrite (fseek_nonneg (position f)) by lia.
    cbn [contents position reads].
    rewrite fread_full; cbn [contents position reads]; try lia.
    rewrite Z.mul_1_r. fold seg. cbn [Z.eqb Pos.eqb negb].
    rewrite for_loop_unary.
    pose proof (macho_sections_find malloc_ok (Z.to_nat (seg_nsects seg))
                  (mkFILE (contents f) (position f + 72) (S (S (reads f)))))
      as Hfind.
    cbn [contents position] in Hfind. rewrite Z2Nat.id in Hfind by lia.
    specialize (Hfind ltac:(lia) ltac:(lia)).
    unfold Spec.segment_sections in H.
    unfold sizeof_segment_command_64, sizeof_section_64 in H. fold seg in H.
    destruct (find _ _) as [s'|]; [discriminate|].
    destruct Hfind as (f' & Hc & Hpos & Hrun). rewrite Hrun.
    apply IH.
    + rewrite fseek_position; lia.
    + rewrite fseek_contents, fseek_position, Hc by lia. exact H.
  - apply IH.
    + rewrite fseek_position; lia.
    + rewrite fseek_contents, fseek_position by lia. exact H.
Qed.

End MachoLacks.

(** X3.  A well-formed Mach-O 64 file, under either magic, in which no
    section is named [__buildinfo] makes the Mach-O extractor return 1 with
    "No __buildinfo section found in binary": commands that are not
    segments, and segments without sections, are passed over. *)
Theorem macho_section_not_found (malloc_ok : Z -> bool) (file : list byte) :
  Spec.macho_lacks_buildinfo file = true ->
  fst (extract_macho_buildinfo MacOS malloc_ok (fopen_rb file)) =
  Exit 1 [] (line "No __buildinfo section found in binary").
Proof.
  unfold Spec.macho_lacks_buildinfo, sizeof_mach_header_64. intros H.
  destruct (Z.leb_spec 32 (Z.of_nat (List.length file))) as [Hh|];
    [|discriminate].
  destruct ((mh_magic (slice 0 32 file) =? MH_MAGIC_64)
            || (mh_magic (slice 0 32 file) =? MH_CIGAM_64)) eqn:Hm;
    [|discriminate].
  cbn [andb] in H.
  unfold extract_macho_buildinfo, rewind, fopen_rb, sizeof_mach_header_64.
  rewrite fread_full; cbn [contents position reads]; try lia.
  change (slice 0 (32 * 1) file) with (slice 0 32 file).
  change (negb (1 =? 1)) with false. cbv iota.
  rewrite <- negb_orb, Hm. cbn [negb].
  rewrite for_loop_unary.
  destruct (macho_walk_lacks malloc_ok
              (Z.to_nat (mh_ncmds (slice 0 32 file)))
              (mkFILE file (0 + 32 * 1) 1)) as (f' & Hrun).
  - simpl. lia.
  - exact H.
  - rewrite Hrun. reflexivity.
Qed.

Lemma macho_section_not_found_witness :
  fst (extract_macho_buildinfo MacOS always (fopen_rb macho_plain)) =
  Exit 1 [] (line "No __buildinfo section found in binary").
Proof.
  apply (macho_section_not_found always macho_plain).
  vm_compute. reflexivity.
Defined.

(** ** Sections that cannot be read *)

Section PrintingFails.

Variable malloc_ok : Z -> bool.

Lemma slice_length_le (off len : Z) (bs : list byte) :
  (List.length (slice off len bs) <= Z.to_nat len)%nat.
Proof. unfold slice. rewrite length_firstn. lia. Qed.

(** An empty section, or one that runs past the end of the file, is a read
    failure. *)
Lemma print_section_unreadable (name : string) (size offset : Z) (f : FILE) :
  0 <= offset -> 0 <= size < 2 ^ 64 - 1 ->
  size = 0 \/ Z.of_nat (List.length (contents f)) < offset + size ->
  malloc_ok (size + 1) = true ->
  fst (print_section malloc_ok name size offset f) =
  Exit 1 [] (line ("Failed to read " ++ name ++ " section")).
Proof.
  intros Ho Hs Hbad Hm. unfold print_section.
  rewrite Z.mod_small by lia. rewrite Hm. cbn [negb].
  rewrite fseek_nonneg by exact Ho.
  assert (Hn : snd (fst (fread size 1 (mkFILE (contents f) offset (reads f))))
               = 0).
  { destruct (Z.eq_dec size 0) as [->|Hne].
    - reflexivity.
    - apply fread_short; cbn [contents position]; lia. }
  assert (Hd : (List.length
                  (fst (fst (fread size 1
                               (mkFILE (contents f) offset (reads f)))))
                <= Z.to_nat size)%nat).
  { unfold fread. cbn [fst contents position].
    etransitivity; [apply slice_length_le|]. lia. }
  destruct (fread size 1 _) as [[data n] f2]. cbn [fst snd] in Hn, Hd.
  subst n.
  destruct (Z.ltb_spec (size + 1) (Z.of_nat (List.length data))); [lia|].
  reflexivity.
Qed.

(** A size of [2^64 - 1] makes [size + 1] wrap to an allocation of no byte,
    into which [fread] stores what the file holds from the offset on. *)
Lemma print_section_overrun (name : string) (offset : Z) (f : FILE) :
  0 <= offset < Z.of_nat (List.length (contents f)) ->
  malloc_ok 0 = true ->
  fst (print_section malloc_ok name (2 ^ 64 - 1) offset f) =
  Undefined "fread past the end of data".
Proof.
  intros Ho Hm. unfold print_section.
  replace ((2 ^ 64 - 1 + 1) mod 2 ^ 64) with 0 by reflexivity.
  rewrite Hm. cbn [negb]. rewrite fseek_nonneg by lia.
  unfold fread. cbn [contents position reads].
  set (got := Z.min _ _).
  assert (Hgot : 0 < got <= Z.of_nat (List.length (contents f)) - offset)
    by (unfold got; lia).
  rewrite slice_length by lia.
  destruct (Z.ltb_spec 0 (Z.of_nat (Z.to_nat got))); [reflexivity|lia].
Qed.

End PrintingFails.

(** An empty section is a read failure wherever the stream stands. *)
Lemma print_section_empty (malloc_ok : Z -> bool) (name : string)
  (offset : Z) (f : FILE) :
  malloc_ok 1 = true ->
  fst (print_section malloc_ok name 0 offset f) =
  Exit 1 [] (line ("Failed to read " ++ name ++ " section")).
Proof.
  intros Hm. unfold print_section.
  change ((0 + 1) mod 2 ^ 64) with 1. rewrite Hm. cbn [negb].
  unfold fread. cbn [Z.eqb Z.mul].
  rewrite Z.min_l by lia. unfold slice. cbn [Z.to_nat firstn List.length].
  reflexivity.
Qed.

(** X4.  When the first section of the requested name is empty (size 0),
    or starts inside the file (at an offset that is at most the length of
    the file) with a size below [2^64 - 1] that reaches past the end of the
    file, either extractor returns 1 with "Failed to read <name> section"
    and writes nothing to standard output, provided its allocations
    succeed: there is no partial output. *)
Theorem section_data_unreadable (fmt : format) (malloc_ok : Z -> bool)
  (file s : list byte) :
  Spec.first_buildinfo fmt file = Some s ->
  record_size fmt s = 0
  \/ (0 <= record_offset fmt s <= Z.of_nat (List.length file)
      /\ Z.of_nat (List.length file) < record_offset fmt s + record_size fmt s
      /\ record_size fmt s < 2 ^ 64 - 1) ->
  (forall n, n <= Z.of_nat (List.length file) -> malloc_ok n = true) ->
  malloc_ok (record_size fmt s + 1) = true ->
  fst (extractor fmt (build_for fmt) malloc_ok (fopen_rb file)) =
  Exit 1 [] (line ("Failed to read " ++ section_name fmt ++ " section")).
Proof.
  intros Hs Hbad Hm Hm1.
  destruct (extractor_first fmt malloc_ok file s Hs Hm) as (f' & Hf & ->).
  assert (0 <= record_size fmt s).
  { destruct fmt; simpl; apply field_nonneg. }
  destruct Hbad as [Hzero|(Ho & Hout & Hsz)].
  - rewrite Hzero in *. apply print_section_empty. exact Hm1.
  - apply print_section_unreadable; try assumption; try lia.
    rewrite Hf. right. exact Hout.
Qed.

Lemma section_data_unreadable_witness :
  fst (extract_elf_buildinfo OtherOS always (fopen_rb (elf_sized 1000))) =
  Exit 1 [] (line "Failed to read .buildinfo section").
Proof.
  apply (section_data_unreadable ELF64 always (elf_sized 1000)
           (Elf64_Shdr 11 64 1000)).
  - vm_compute. reflexivity.
  - right. vm_compute. repeat split; try reflexivity; discriminate.
  - reflexivity.
  - reflexivity.
Defined.

(** X5.  A section of the requested name whose declared size is
    [2^64 - 1] makes [malloc(size + 1)] an allocation of no byte: when that
    allocation succeeds and the offset lies inside the file, [fread] writes
    the rest of the file past the end of the buffer. *)
Theorem section_size_wraps (fmt : format) (malloc_ok : Z -> bool)
  (file s : list byte) :
  Spec.first_buildinfo fmt file = Some s ->
  record_size fmt s = 2 ^ 64 - 1 ->
  0 <= record_offset fmt s < Z.of_nat (List.length file) ->
  (forall n, n <= Z.of_nat (List.length file) -> malloc_ok n = true) ->
  fst (extractor fmt (build_for fmt) malloc_ok (fopen_rb file)) =
  Undefined "fread past the end of data".
Proof.
  intros Hs Hsz Ho Hm.
  destruct (extractor_first fmt malloc_ok file s Hs Hm) as (f' & Hf & ->).
  rewrite Hsz. apply print_section_overrun.
  - rewrite Hf. exact Ho.
  - apply Hm. lia.
Qed.

Lemma section_size_wraps_witness :
  fst (extract_elf_buildinfo OtherOS always
         (fopen_rb (elf_sized (2 ^ 64 - 1)))) =
  Undefined "fread past the end of data".
Proof.
  apply (section_size_wraps ELF64 always (elf_sized (2 ^ 64 - 1))
           (Elf64_Shdr 11 64 (2 ^ 64 - 1))).
  - vm_compute. reflexivity.
  - vm_compute. reflexivity.
  - vm_compute. split; [discriminate|reflexivity].
  - reflexivity.
Defined.

(** X6.  An ELF64 file that declares no section headers ([e_shnum == 0])
    is not reported as lacking the section: the header of the string table
    is taken from [sections[e_shstrndx]] in an array of no element. *)
Theorem elf_without_section_headers (malloc_ok : Z -> bool)
  (file : list byte) :
  64 <= Z.of_nat (List.length file) ->
  slice 0 SELFMAG (Spec.elf_header file) = ELFMAG ->
  e_shnum (Spec.elf_header file) = 0 ->
  malloc_ok 0 = true ->
  fst (extract_elf_buildinfo OtherOS malloc_ok (fopen_rb file)) =
  Undefined "sections[e_shstrndx] past the array".
Proof.
  intros Hlen Hmag Hnum Hm.
  unfold extract_elf_buildinfo, rewind, fopen_rb.
  unfold sizeof_Elf64_Ehdr, sizeof_Elf64_Shdr.
  rewrite fread_full; cbn [contents position reads]; try lia.
  change (slice 0 (64 * 1) file) with (Spec.elf_header file).
  change (negb (1 =? 1)) with false. cbv iota.
  unfold e_ident. rewrite slice_slice by (unfold SELFMAG; lia).
  change (0 + 0) with 0. rewrite Hmag, Hnum. cbn [bytes_eqb ELFMAG].
  change (negb _) with false at 1. cbv iota.
  change (0 * 64) with 0. rewrite Hm. cbn [negb].
  unfold fread. rewrite Z.mul_0_r.
  rewrite Z.min_l by lia. cbn [Z.eqb Z.div Z.to_nat records nth_error negb].
  change (0 / 64) with 0. cbn [Z.eqb negb].
  destruct (Z.to_nat (e_shstrndx (Spec.elf_header file))); reflexivity.
Qed.

Lemma elf_without_section_headers_witness :
  fst (extract_elf_buildinfo OtherOS always (fopen_rb elf_stripped)) =
  Undefined "sections[e_shstrndx] past the array".
Proof.
  apply (elf_without_section_headers always elf_stripped).
  - vm_compute. discriminate.
  - vm_compute. reflexivity.
  - vm_compute. reflexivity.
  - reflexivity.
Defined.

(** X7.  A file of fewer than four bytes, the empty file among them, makes
    the program of either build return 1 with "Failed to read file magic";
    no extractor is called and the stream is closed. *)
Theorem short_file_rejected (os : platform) (malloc_ok : Z -> bool)
  (argv0 path : string) (fs : filesystem) (bytes : list byte) :
  fs path = File bytes ->
  Z.of_nat (List.length bytes) < 4 ->
  main os malloc_ok argv0 [path] fs =
  mkRun (Exit 1 [] (line "Failed to read file magic")) []
        (Some (mkFILE bytes (Z.of_nat (List.length bytes)) 1)).
Proof.
  intros Hfs Hlen. unfold main. rewrite Hfs. unfold fopen_rb, fread.
  cbn [contents position reads].
  rewrite Z.max_r, Z.min_r by lia. cbn [Z.eqb].
  rewrite Z.div_small by lia. cbn [Z.eqb negb].
  rewrite Z.sub_0_r. reflexivity.
Qed.

Lemma short_file_rejected_witness :
  main OtherOS always "extract-buildinfo" ["empty"] (one_file []) =
  mkRun (Exit 1 [] (line "Failed to read file magic")) []
        (Some (mkFILE [] 0 1)).
Proof.
  apply (short_file_rejected OtherOS always "extract-buildinfo" "empty"
           (one_file []) []).
  - reflexivity.
  - simpl. lia.
Defined.

(** ** Every outcome of the program *)

Lemma fread_reading (file : list byte) (size nmemb : Z) (f : FILE) :
  reading file f -> 0 <= size * nmemb ->
  reading file (snd (fread size nmemb f)).
Proof.
  intros [Hc Hp] Hs. split; [exact Hc|].
  pose proof (fread_position_le size nmemb f Hs). lia.
Qed.

Lemma fseek_reading (file : list byte) (off : Z) (f : FILE) :
  reading file f -> reading file (fseek off f).
Proof.
  intros [Hc Hp]. unfold fseek. destruct (Z.ltb_spec off 0).
  - split; assumption.
  - split; [exact Hc|exact H].
Qed.

Lemma emitted_weaken (malloc_ok : Z -> bool) (msgs msgs' : list string)
  (file : list byte) (o : outcome) :
  incl msgs msgs' -> emitted malloc_ok msgs file o ->
  emitted malloc_ok msgs' file o.
Proof.
  intros Hi H. destruct H.
  - apply emitted_fail. apply Hi. assumption.
  - apply emitted_undefined.
  - apply emitted_print; assumption.
Qed.

Section Emits.

Variable malloc_ok : Z -> bool.

(** What the block that prints a section can end with. *)
Lemma print_section_cases (file : list byte) (name : string)
  (size offset : Z) (f : FILE) :
  reading file f -> 0 <= size ->
  let o := fst (print_section malloc_ok name size offset f) in
  (o = fail (line "Memory allocation failed")
   /\ malloc_ok ((size + 1) mod 2 ^ 64) = false)
  \/ (exists what, o = Undefined what)
  \/ o = fail (line ("Failed to read " ++ name ++ " section"))
  \/ (malloc_ok ((size + 1) mod 2 ^ 64) = true
      /\ exists off, 0 <= off /\ 0 < size
         /\ off + size <= Z.of_nat (List.length file)
         /\ o = Exit 0 (c_string (slice off size file)) "").
Proof.
  intros Hr Hs o. subst o. unfold print_section.
  destruct (malloc_ok ((size + 1) mod 2 ^ 64)) eqn:Hm; cbn [negb];
    [|left; split; reflexivity].
  right.
  pose proof (fseek_reading file offset f Hr) as [Hc Hp].
  destruct (fread size 1 (fseek offset f)) as [[data n] f2] eqn:E.
  destruct (_ <? _); [left; eexists; reflexivity|].
  destruct (Z.eqb_spec n 1) as [Hn|Hn]; cbn [negb]; [|right; left; reflexivity].
  right. right. split; [reflexivity|].
  assert (Hpos : 0 < size).
  { destruct (Z.eq_dec size 0) as [Hz|Hz]; [|lia].
    subst size. unfold fread in E. cbn [Z.eqb] in E. congruence. }
  exists (position (fseek offset f)).
  pose proof (fread_one_data size _ data n f2 Hpos E Hn) as Hd.
  pose proof (fread_one_fits size _ data n f2 Hpos Hp E Hn) as Hfit.
  rewrite Hc in Hd, Hfit. cbn [fst]. rewrite c_string_terminator, Hd.
  repeat split; try assumption.
Qed.

Lemma elf_scan_emits (file strtab : list byte) (sections : list (list byte))
  (f : FILE) :
  reading file f ->
  emitted malloc_ok elf_diagnostics file
    (fst (elf_scan malloc_ok strtab sections f)).
Proof.
  intros Hr. induction sections as [|s rest IH]; simpl.
  - apply emitted_fail. simpl. tauto.
  - destruct (strcmp_at strtab (sh_name s) ".buildinfo") as [[|]|].
    + apply emitted_print; [exact Hr|apply field_nonneg].
    + exact IH.
    + apply emitted_undefined.
Qed.

(** Called on a file that starts with the ELF magic, the ELF extractor does
    not fail its own test of the magic. *)
Lemma extract_elf_emits (file : list byte) (f : FILE) :
  reading file f ->
  le_decode (slice 0 4 file) = 0x464c457f ->
  emitted malloc_ok elf_diagnostics file
    (fst (extract_elf_buildinfo OtherOS malloc_ok f)).
Proof.
  intros Hr Hmagic. unfold extract_elf_buildinfo.
  assert (Hr0 : reading file (rewind f)).
  { destruct Hr as [Hc _]. split; [exact Hc|simpl; lia]. }
  pose proof (fread_reading file sizeof_Elf64_Ehdr 1 (rewind f) Hr0
                ltac:(cbv; discriminate)) as Hr1.
  destruct (fread sizeof_Elf64_Ehdr 1 (rewind f)) as [[ehdr n] f1] eqn:E1.
  cbn [snd] in Hr1.
  destruct (Z.eqb_spec n 1) as [Hn|Hn]; cbn [negb];
    [|apply emitted_fail; simpl; tauto].
  unfold sizeof_Elf64_Ehdr in E1.
  pose proof (fread_one_data 64 _ ehdr n f1 ltac:(lia) E1 Hn) as Hd.
  pose proof (fread_one_fits 64 (rewind f) ehdr n f1 ltac:(lia)
                ltac:(simpl; lia) E1 Hn) as Hfit.
  cbn [rewind contents position] in Hd, Hfit.
  destruct Hr as [Hc Hp]. rewrite Hc in Hd, Hfit.
  assert (Hm : bytes_eqb (slice 0 SELFMAG (e_ident ehdr)) ELFMAG = true).
  { apply bytes_eqb_eq. subst ehdr. unfold e_ident, SELFMAG.
    rewrite !slice_slice by lia. change (0 + 0 + 0) with 0.
    apply le_decode_inj; [|exact Hmagic].
    rewrite slice_length by lia. reflexivity. }
  rewrite Hm. cbn [negb].
  destruct (negb (malloc_ok _)); [apply emitted_fail; simpl; tauto|].
  pose proof (field_nonneg 60 2 ehdr) as Hnum. fold (e_shnum ehdr) in Hnum.
  pose proof (fread_reading file sizeof_Elf64_Shdr (e_shnum ehdr)
                (fseek (to_long (e_shoff ehdr)) f1)
                (fseek_reading file _ f1 Hr1)
                ltac:(unfold sizeof_Elf64_Shdr; lia)) as Hr3.
  destruct (fread sizeof_Elf64_Shdr (e_shnum ehdr) _) as [[buf n3] f3].
  cbn [snd] in Hr3.
  destruct (negb (n3 =? e_shnum ehdr)); [apply emitted_fail; simpl; tauto|].
  destruct (nth_error _ _) as [st|]; [|apply emitted_undefined].
  destruct (negb (malloc_ok _)); [apply emitted_fail; simpl; tauto|].
  pose proof (field_nonneg 32 8 st) as Hsz. fold (sh_size st) in Hsz.
  pose proof (fread_reading file (sh_size st) 1
                (fseek (to_long (sh_offset st)) f3)
                (fseek_reading file _ f3 Hr3) ltac:(lia)) as Hr5.
  destruct (fread (sh_size st) 1 _) as [[strtab n5] f5]. cbn [snd] in Hr5.
  destruct (negb (n5 =? 1)); [apply emitted_fail; simpl; tauto|].
  apply elf_scan_emits. exact Hr5.
Qed.

Lemma macho_section_emits (file : list byte) (f : FILE) :
  reading file f ->
  match macho_section malloc_ok f with
  | Continue f' => reading file f'
  | Return r => emitted malloc_ok macho_diagnostics file (fst r)
  end.
Proof.
  intros Hr. unfold macho_section.
  pose proof (fread_reading file sizeof_section_64 1 f Hr
                ltac:(cbv; discriminate)) as Hr1.
  destruct (fread sizeof_section_64 1 f) as [[sect n] f1]. cbn [snd] in Hr1.
  destruct (negb (n =? 1)); [apply emitted_fail; simpl; tauto|].
  destruct (strcmp_at _ _ _) as [[|]|].
  - apply emitted_print; [exact Hr1|apply field_nonneg].
  - exact Hr1.
  - apply emitted_undefined.
Qed.

Lemma macho_command_emits (file : list byte) (f : FILE) :
  reading file f ->
  match macho_command malloc_ok f with
  | Continue f' => reading file f'
  | Return r => emitted malloc_ok macho_diagnostics file (fst r)
  end.
Proof.
  intros Hr. unfold macho_command, ftell.
  pose proof (fread_reading file sizeof_load_command 1 f Hr
                ltac:(cbv; discriminate)) as Hr1.
  destruct (fread sizeof_load_command 1 f) as [[lc n] f1]. cbn [snd] in Hr1.
  destruct (negb (n =? 1)); [apply emitted_fail; simpl; tauto|].
  destruct (lc_cmd lc =? LC_SEGMENT_64).
  - pose proof (fread_reading file sizeof_segment_command_64 1
                  (fseek (position f) f1) (fseek_reading file _ f1 Hr1)
                  ltac:(cbv; discriminate)) as Hr3.
    destruct (fread sizeof_segment_command_64 1 _) as [[seg n3] f3].
    cbn [snd] in Hr3.
    destruct (negb (n3 =? 1)); [apply emitted_fail; simpl; tauto|].
    pose proof (for_loop_invariant (reading file)
                  (fun r => emitted malloc_ok macho_diagnostics file (fst r))
                  (macho_section malloc_ok) (macho_section_emits file)
                  (seg_nsects seg) f3 Hr3) as Hloop.
    destruct (for_loop _ _ f3) as [f4|r]; [|exact Hloop].
    apply fseek_reading. exact Hloop.
  - apply fseek_reading. exact Hr1.
Qed.

(** Called on a file that starts with one of the two Mach-O magics, the
    Mach-O extractor does not fail its own test of the magic. *)
Lemma extract_macho_emits (file : list byte) (f : FILE) :
  reading file f ->
  dispatches MacOS (le_decode (slice 0 4 file)) = true ->
  emitted malloc_ok macho_diagnostics file
    (fst (extract_macho_buildinfo MacOS malloc_ok f)).
Proof.
  intros Hr Hmagic. unfold extract_macho_buildinfo.
  assert (Hr0 : reading file (rewind f)).
  { destruct Hr as [Hc _]. split; [exact Hc|simpl; lia]. }
  pose proof (fread_reading file sizeof_mach_header_64 1 (rewind f) Hr0
                ltac:(cbv; discriminate)) as Hr1.
  destruct (fread sizeof_mach_header_64 1 (rewind f)) as [[mh n] f1] eqn:E1.
  cbn [snd] in Hr1.
  destruct (Z.eqb_spec n 1) as [Hn|Hn]; cbn [negb];
    [|apply emitted_fail; simpl; tauto].
  unfold sizeof_mach_header_64 in E1.
  pose proof (fread_one_data 32 _ mh n f1 ltac:(lia) E1 Hn) as Hd.
  cbn [rewind contents position] in Hd.
  destruct Hr as [Hc Hp]. rewrite Hc in Hd.
  assert (Hm : mh_magic mh = le_decode (slice 0 4 file)).
  { subst mh. unfold mh_magic, field. rewrite slice_slice by lia.
    reflexivity. }
  unfold dispatches in Hmagic. rewrite <- negb_orb, Hm, Hmagic. cbn [negb].
  pose proof (for_loop_invariant (reading file)
                (fun r => emitted malloc_ok macho_diagnostics file (fst r))
                (macho_command malloc_ok) (macho_command_emits file)
                (mh_ncmds mh) f1 Hr1) as Hloop.
  destruct (for_loop _ _ f1) as [f2|r]; [|exact Hloop].
  apply emitted_fail. simpl. tauto.
Qed.

(** Once the file is open, a run ends with one of the diagnostics of the
    build, in undefined behaviour, or in the block that prints a section. *)
Lemma main_emits (os : platform) (argv0 path : string) (fs : filesystem)
  (bytes : list byte) :
  fs path = File bytes ->
  emitted malloc_ok (main_diagnostics os) bytes
    (result (main os malloc_ok argv0 [path] fs)).
Proof.
  intros Hfs. unfold main. rewrite Hfs.
  assert (Hr : reading bytes (fopen_rb bytes)) by (split; [reflexivity|simpl; lia]).
  pose proof (fread_reading bytes 4 1 _ Hr ltac:(lia)) as Hr1.
  destruct (fread 4 1 (fopen_rb bytes)) as [[m n] f1] eqn:E. cbn [snd] in Hr1.
  destruct (Z.eqb_spec n 1) as [Hn|Hn]; cbn [negb];
    [|apply emitted_fail; simpl; tauto].
  pose proof (fread_one_data 4 _ m n f1 ltac:(lia) E Hn) as Hd.
  cbn [fopen_rb contents position] in Hd. subst m.
  destruct os.
  - destruct ((le_decode (slice 0 4 bytes) =? MH_MAGIC_64)
              || (le_decode (slice 0 4 bytes) =? MH_CIGAM_64)) eqn:Hm.
    + pose proof (extract_macho_emits bytes f1 Hr1 Hm) as He.
      destruct (extract_macho_buildinfo MacOS malloc_ok f1) as [r f2].
      cbn [result fst] in *.
      eapply emitted_weaken; [|exact He].
      intros x Hx. simpl. right. right. exact Hx.
    + apply emitted_fail. simpl. tauto.
  - destruct (Z.eqb_spec (le_decode (slice 0 4 bytes)) 0x464c457f) as [Hm|Hm].
    + pose proof (extract_elf_emits bytes f1 Hr1 Hm) as He.
      destruct (extract_elf_buildinfo OtherOS malloc_ok f1) as [r f2].
      cbn [result fst] in *.
      eapply emitted_weaken; [|exact He].
      intros x Hx. simpl. right. right. exact Hx.
    + apply emitted_fail. simpl. tauto.
Qed.

End Emits.

Lemma line_nonempty (s : string) : line s <> "".
Proof. unfold line. destruct s; simpl; discriminate. Qed.

Lemma main_diagnostics_nonempty (os : platform) (msg : string) :
  In msg (main_diagnostics os) -> msg <> "".
Proof.
  destruct os; simpl; intros H;
    repeat (destruct H as [<-|H]; [apply line_nonempty|]); contradiction.
Qed.

Lemma main_diagnostics_reachable (os : platform) (msg : string) :
  In msg (main_diagnostics os) -> ~ In msg unreachable_diagnostics.
Proof.
  destruct os; simpl; intros H;
    repeat (destruct H as [<-|H];
            [intros [E|[E|[E|[E|[]]]]]; discriminate E|]);
    contradiction.
Qed.

(** What a run that opened its file can end with, in terms of its status
    and its two output streams. *)
Lemma emitted_cases (malloc_ok : Z -> bool) (os : platform)
  (file : list byte) (o : outcome) :
  emitted malloc_ok (main_diagnostics os) file o ->
  match o with
  | Exit st out err =>
      (st = 1 /\ out = [] /\ err <> "" /\ ~ In err unreachable_diagnostics)
      \/ (st = 0 /\ err = ""
          /\ (exists c, malloc_ok c = true)
          /\ exists off size, 0 <= off /\ 0 < size
             /\ off + size <= Z.of_nat (List.length file)
             /\ out = c_string (slice off size file))
  | Undefined _ => True
  end.
Proof.
  intros H. destruct H as [msg Hin|what|name size offset f Hr Hs].
  - left. repeat split.
    + apply (main_diagnostics_nonempty os). exact Hin.
    + apply (main_diagnostics_reachable os). exact Hin.
  - exact I.
  - destruct (print_section_cases malloc_ok file name size offset f Hr Hs)
      as [[-> _]|[[what ->]|[->|(Hm & off & Ho & Hsz & Hin & ->)]]].
    + left. repeat split; [apply line_nonempty|].
      intros [E|[E|[E|[E|[]]]]]; discriminate E.
    + exact I.
    + left. repeat split; [apply line_nonempty|].
      intros [E|[E|[E|[E|[]]]]]; discriminate E.
    + right. repeat split.
      * eexists. exact Hm.
      * exists off, size. repeat split; assumption.
Qed.

(** The same for every run, with or without a file. *)
Lemma main_cases (os : platform) (malloc_ok : Z -> bool) (argv0 : string)
  (args : list string) (fs : filesystem) :
  match result (main os malloc_ok argv0 args fs) with
  | Exit st out err =>
      (st = 1 /\ out = [] /\ err <> "" /\ ~ In err unreachable_diagnostics)
      \/ (st = 0 /\ err = ""
          /\ (exists c, malloc_ok c = true)
          /\ exists path bytes off size,
               args = [path] /\ fs path = File bytes
               /\ 0 <= off /\ 0 < size
               /\ off + size <= Z.of_nat (List.length bytes)
               /\ out = c_string (slice off size bytes))
  | Undefined _ => True
  end.
Proof.
  assert (Husage : usage argv0 <> ""
                   /\ ~ In (usage argv0) unreachable_diagnostics).
  { split; [discriminate|]. intros [E|[E|[E|[E|[]]]]]; discriminate E. }
  destruct args as [|path [|more rest]].
  - unfold main. cbn [result fail]. left.
    split; [reflexivity|]. split; [reflexivity|]. exact Husage.
  - destruct (fs path) as [bytes|e] eqn:Hfs.
    + pose proof (emitted_cases malloc_ok os bytes _
                    (main_emits malloc_ok os argv0 path fs bytes Hfs)) as H.
      destruct (result (main os malloc_ok argv0 [path] fs))
        as [st out err|what]; [|exact I].
      destruct H as [H|(Hst & Herr & Hm & off & size & H)]; [left; exact H|].
      right. repeat split; try assumption.
      exists path, bytes, off, size. tauto.
    + unfold main. rewrite Hfs. left. cbn [result fail].
      repeat split; [apply line_nonempty|].
      intros [E|[E|[E|[E|[]]]]]; discriminate E.
  - unfold main. cbn [result fail]. left.
    split; [reflexivity|]. split; [reflexivity|]. exact Husage.
Qed.

(** X8.  The exit status of the program is 0 or 1.  With status 0 nothing
    goes to standard error; with status 1 nothing goes to standard output
    and a diagnostic goes to standard error. *)
Theorem exit_status_contract (os : platform) (malloc_ok : Z -> bool)
  (argv0 : string) (args : list string) (fs : filesystem)
  (st : Z) (out : list byte) (err : string) :
  result (main os malloc_ok argv0 args fs) = Exit st out err ->
  (st = 0 /\ err = "") \/ (st = 1 /\ out = [] /\ err <> "").
Proof.
  intros H. pose proof (main_cases os malloc_ok argv0 args fs) as Hc.
  rewrite H in Hc. destruct Hc as [(Hs & Ho & He & _)|(Hs & He & _)].
  - right. repeat split; assumption.
  - left. split; assumption.
Qed.

Lemma exit_status_contract_witness :
  (0 = 0 /\ "" = "") \/ (0 = 1 /\ payload = [] /\ "" <> "").
Proof.
  apply (exit_status_contract OtherOS always "extract-buildinfo" ["a.out"]
           (one_file elf_file) 0 payload "").
  vm_compute. reflexivity.
Defined.

(** X9.  Whatever the program writes to standard output when it returns 0
    comes from the file it was given: it is the bytes, up to the first NUL,
    of a run of the file that is not empty and lies inside it. *)
Theorem success_output_is_file_content (os : platform)
  (malloc_ok : Z -> bool) (argv0 : string) (args : list string)
  (fs : filesystem) (out : list byte) (err : string) :
  result (main os malloc_ok argv0 args fs) = Exit 0 out err ->
  exists path bytes off size,
    args = [path] /\ fs path = File bytes
    /\ 0 <= off /\ 0 < size /\ off + size <= Z.of_nat (List.length bytes)
    /\ out = c_string (slice off size bytes).
Proof.
  intros H. pose proof (main_cases os malloc_ok argv0 args fs) as Hc.
  rewrite H in Hc. destruct Hc as [(Hs & _)|(_ & _ & _ & Hex)].
  - discriminate Hs.
  - exact Hex.
Qed.

Lemma success_output_is_file_content_witness :
  exists path bytes off size,
    ["a.out"] = [path] /\ one_file macho_file "a.out" = File bytes
    /\ 0 <= off /\ 0 < size /\ off + size <= Z.of_nat (List.length bytes)
    /\ payload = c_string (slice off size bytes).
Proof.
  apply (success_output_is_file_content MacOS always "extract-buildinfo"
           ["a.out"] (one_file macho_file) payload "").
  vm_compute. reflexivity.
Defined.

(** X10.  Four diagnostics of the source are never printed by the program:
    [main] has compared the same four bytes before it calls an extractor,
    so "Not a valid ELF file" and "Not a valid 64-bit Mach-O file" cannot
    follow, and it calls only the extractor its build supports, so neither
    "... format not supported on this platform" message can. *)
Theorem unreachable_diagnostics_never_printed (os : platform)
  (malloc_ok : Z -> bool) (argv0 : string) (args : list string)
  (fs : filesystem) (st : Z) (out : list byte) (err : string) :
  result (main os malloc_ok argv0 args fs) = Exit st out err ->
  ~ In err unreachable_diagnostics.
Proof.
  intros H. pose proof (main_cases os malloc_ok argv0 args fs) as Hc.
  rewrite H in Hc. destruct Hc as [(_ & _ & _ & Hn)|(_ & -> & _)].
  - exact Hn.
  - intros [E|[E|[E|[E|[]]]]]; discriminate E.
Qed.

Lemma unreachable_diagnostics_never_printed_witness :
  ~ In (line "Unknown or unsupported binary format") unreachable_diagnostics.
Proof.
  apply (unreachable_diagnostics_never_printed MacOS always
           "extract-buildinfo" ["a.out"] (one_file elf_file) 1 []
           (line "Unknown or unsupported binary format")).
  vm_compute. reflexivity.
Defined.

(** X11.  The program cannot return 0 without a successful allocation:
    when every [malloc] fails, every run ends with status 1 or in undefined
    behaviour. *)
Theorem no_success_without_allocation (os : platform)
  (malloc_ok : Z -> bool) (argv0 : string) (args : list string)
  (fs : filesystem) (out : list byte) (err : string) :
  (forall n, malloc_ok n = false) ->
  result (main os malloc_ok argv0 args fs) <> Exit 0 out err.
Proof.
  intros Hm H. pose proof (main_cases os malloc_ok argv0 args fs) as Hc.
  rewrite H in Hc. destruct Hc as [(Hs & _)|(_ & _ & [c Hc] & _)].
  - discriminate Hs.
  - rewrite Hm in Hc. discriminate Hc.
Qed.

Lemma no_success_without_allocation_witness :
  result (main OtherOS (fun _ => false) "extract-buildinfo" ["a.out"]
               (one_file elf_file))
  <> Exit 0 payload "".
Proof.
  apply (no_success_without_allocation OtherOS (fun _ => false)).
  reflexivity.
Defined.

(** ** Reads and positions *)

Section ElfCost.

Variable malloc_ok : Z -> bool.

Lemma elf_scan_cost (strtab : list byte) (sections : list (list byte))
  (f : FILE) :
  costR (elf_scan malloc_ok strtab sections f) <= cost f + 1.
Proof.
  induction sections as [|s rest IH]; simpl.
  - unfold costR, cost. simpl. lia.
  - destruct (strcmp_at strtab (sh_name s) ".buildinfo") as [[|]|].
    + apply print_section_cost.
    + exact IH.
    + unfold costR, cost. simpl. lia.
Qed.

End ElfCost.

(** X12.  The ELF extractor makes at most four reads of the file, whatever
    the file declares: the header, the section-header table, the string
    table and the section. *)
Theorem elf_reads_bounded (os : platform) (malloc_ok : Z -> bool) (f : FILE) :
  (reads (snd (extract_elf_buildinfo os malloc_ok f)) <= reads f + 4)%nat.
Proof.
  assert (H : costR (extract_elf_buildinfo os malloc_ok f) <= cost f + 4);
    [|unfold costR, cost in H; lia].
  unfold extract_elf_buildinfo. destruct os; [unfold costR, cost; simpl; lia|].
  destruct (fread sizeof_Elf64_Ehdr 1 (rewind f)) as [[ehdr n] f1] eqn:E1.
  assert (H1 : cost f1 = cost f + 1).
  { change f1 with (snd (ehdr, n, f1)). rewrite <- E1. unfold cost.
    rewrite fread_reads. simpl. lia. }
  destruct (negb (n =? 1)); [unfold costR; cbn [snd]; fold (cost f1); lia|].
  destruct (negb (bytes_eqb _ _));
    [unfold costR; cbn [snd]; fold (cost f1); lia|].
  destruct (negb (malloc_ok _)).
  { unfold costR, cost in *. cbn [snd]. rewrite fseek_reads. lia. }
  destruct (fread sizeof_Elf64_Shdr (e_shnum ehdr)
              (fseek (to_long (e_shoff ehdr)) f1)) as [[buf n3] f3] eqn:E3.
  assert (H3 : cost f3 = cost f + 2).
  { change f3 with (snd (buf, n3, f3)). rewrite <- E3. unfold cost in *.
    rewrite fread_reads, fseek_reads. lia. }
  destruct (negb (n3 =? e_shnum ehdr));
    [unfold costR; cbn [snd]; fold (cost f3); lia|].
  destruct (nth_error _ _) as [st|];
    [|unfold costR; cbn [snd]; fold (cost f3); lia].
  destruct (negb (malloc_ok _));
    [unfold costR; cbn [snd]; fold (cost f3); lia|].
  destruct (fread (sh_size st) 1 (fseek (to_long (sh_offset st)) f3))
    as [[strtab n5] f5] eqn:E5.
  assert (H5 : cost f5 = cost f + 3).
  { change f5 with (snd (strtab, n5, f5)). rewrite <- E5. unfold cost in *.
    rewrite fread_reads, fseek_reads. lia. }
  destruct (negb (n5 =? 1)); [unfold costR; cbn [snd]; fold (cost f5); lia|].
  pose proof (elf_scan_cost malloc_ok strtab
                (records (Z.to_nat (e_shnum ehdr))
                         (Z.to_nat sizeof_Elf64_Shdr) buf) f5).
  lia.
Qed.

(** One pass of the load-command loop does not move the cursor back. *)
Lemma macho_command_forward (malloc_ok : Z -> bool) (f : FILE) :
  0 <= position f ->
  match macho_command malloc_ok f with
  | Continue f' => position f <= position f'
  | Return _ => True
  end.
Proof.
  intros Hp. unfold macho_command, ftell.
  destruct (fread sizeof_load_command 1 f) as [[lc n] f1].
  destruct (negb (n =? 1)); [exact I|].
  pose proof (field_nonneg 4 4 lc) as Hcs. fold (lc_cmdsize lc) in Hcs.
  destruct (lc_cmd lc =? LC_SEGMENT_64).
  - destruct (fread sizeof_segment_command_64 1 _) as [[seg n3] f3].
    destruct (negb (n3 =? 1)); [exact I|].
    destruct (for_loop _ _ f3) as [f4|r]; [|exact I].
    rewrite fseek_position; lia.
  - rewrite fseek_position; lia.
Qed.

(** X13.  The load-command walk of the Mach-O extractor never moves back:
    however many commands it passes, and whatever their [cmdsize], the next
    command is read at or after the place the walk started from. *)
Theorem macho_walk_never_back (malloc_ok : Z -> bool) (n : Z) (f : FILE) :
  0 <= position f ->
  match for_loop n (macho_command malloc_ok) f with
  | Continue f' => position f <= position f'
  | Return _ => True
  end.
Proof.
  intros Hp.
  apply (for_loop_invariant (fun g => position f <= position g)
           (fun _ => True) (macho_command malloc_ok)); [|lia].
  intros g Hg.
  pose proof (macho_command_forward malloc_ok g ltac:(lia)) as H.
  destruct (macho_command malloc_ok g); [lia|exact I].
Qed.

Lemma macho_walk_never_back_witness :
  match for_loop 2 (macho_command always) (mkFILE macho_plain 32 1) with
  | Continue f' => 32 <= position f'
  | Return _ => True
  end.
Proof.
  apply (macho_walk_never_back always 2 (mkFILE macho_plain 32 1)).
  simpl. lia.
Defined.

(** ** From [main] to the extractors *)

Section Later.

Variable malloc_ok : Z -> bool.
Variable k : nat.

Lemma fread_later (size nmemb : Z) (f : FILE) :
  fread size nmemb (later k f) =
  (fst (fst (fread size nmemb f)), snd (fst (fread size nmemb f)),
   later k (snd (fread size nmemb f))).
Proof. reflexivity. Qed.

Lemma fseek_later (off : Z) (f : FILE) :
  fseek off (later k f) = later k (fseek off f).
Proof. unfold fseek. destruct (off <? 0); reflexivity. Qed.

Lemma print_section_later (name : string) (size offset : Z) (f : FILE) :
  print_section malloc_ok name size offset (later k f) =
  later_result k (print_section malloc_ok name size offset f).
Proof.
  unfold print_section.
  destruct (negb (malloc_ok ((size + 1) mod 2 ^ 64))); [reflexivity|].
  rewrite fseek_later, fread_later.
  destruct (fread size 1 (fseek offset f)) as [[data n] f2]. cbn [fst snd].
  repeat match goal with |- context [if ?c then _ else _] => destruct c end;
    reflexivity.
Qed.

Lemma elf_scan_later (strtab : list byte) (sections : list (list byte))
  (f : FILE) :
  elf_scan malloc_ok strtab sections (later k f) =
  later_result k (elf_scan malloc_ok strtab sections f).
Proof.
  induction sections as [|s rest IH]; simpl; [reflexivity|].
  destruct (strcmp_at strtab (sh_name s) ".buildinfo") as [[|]|].
  - apply print_section_later.
  - exact IH.
  - reflexivity.
Qed.

Lemma macho_section_later (f : FILE) :
  macho_section malloc_ok (later k f) =
  step_map (later k) (later_result k) (macho_section malloc_ok f).
Proof.
  unfold macho_section. rewrite fread_later.
  destruct (fread sizeof_section_64 1 f) as [[sect n] f1]. cbn [fst snd].
  destruct (negb (n =? 1)); [reflexivity|].
  destruct (strcmp_at _ _ _) as [[|]|]; try reflexivity.
  cbn [step_map]. rewrite print_section_later. reflexivity.
Qed.

Lemma macho_command_later (f : FILE) :
  macho_command malloc_ok (later k f) =
  step_map (later k) (later_result k) (macho_command malloc_ok f).
Proof.
  unfold macho_command, ftell. rewrite fread_later.
  change (position (later k f)) with (position f).
  destruct (fread sizeof_load_command 1 f) as [[lc n] f1]. cbn [fst snd].
  destruct (negb (n =? 1)); [reflexivity|].
  destruct (lc_cmd lc =? LC_SEGMENT_64).
  - rewrite fseek_later, fread_later.
    destruct (fread sizeof_segment_command_64 1 (fseek (position f) f1))
      as [[seg n3] f3]. cbn [fst snd].
    destruct (negb (n3 =? 1)); [reflexivity|].
    rewrite !for_loop_unary.
    rewrite (for_nat_map (fun _ => True) (macho_section malloc_ok)
               (later k) (later_result k)
               (fun s _ => conj (macho_section_later s)
                  match macho_section malloc_ok s as x
                    return match x with Continue _ => True | Return _ => True end
                  with Continue _ => I | Return _ => I end)
               _ f3 I).
    destruct (for_nat _ _ f3) as [f4|r]; cbn [step_map];
      [rewrite fseek_later|]; reflexivity.
  - rewrite fseek_later. reflexivity.
Qed.

End Later.

(** The outcome of an extractor does not depend on where the stream stands
    when it is called, nor on the reads made before: it rewinds. *)
Lemma extractor_rewinds (malloc_ok : Z -> bool) (fmt : format)
  (os : platform) (f : FILE) :
  fst (extractor fmt os malloc_ok f) =
  fst (extractor fmt os malloc_ok (fopen_rb (contents f))).
Proof.
  destruct fmt; simpl.
  - unfold extract_elf_buildinfo. destruct os; [reflexivity|].
    change (rewind f) with (later (reads f) (rewind (fopen_rb (contents f)))).
    set (g := rewind (fopen_rb (contents f))). clearbody g.
    set (r := reads f). clearbody r. clear f.
    rewrite (fread_later r).
    destruct (fread sizeof_Elf64_Ehdr 1 g) as [[ehdr n] f1]. cbn [fst snd].
    destruct (negb (n =? 1)); [reflexivity|].
    destruct (negb (bytes_eqb _ _)); [reflexivity|].
    destruct (negb (malloc_ok _)); [reflexivity|].
    rewrite (fseek_later r), (fread_later r).
    destruct (fread sizeof_Elf64_Shdr (e_shnum ehdr)
                (fseek (to_long (e_shoff ehdr)) f1)) as [[buf n3] f3].
    cbn [fst snd].
    destruct (negb (n3 =? e_shnum ehdr)); [reflexivity|].
    destruct (nth_error _ _) as [st|]; [|reflexivity].
    destruct (negb (malloc_ok _)); [reflexivity|].
    rewrite (fseek_later r), (fread_later r).
    destruct (fread (sh_size st) 1 (fseek (to_long (sh_offset st)) f3))
      as [[strtab n5] f5]. cbn [fst snd].
    destruct (negb (n5 =? 1)); [reflexivity|].
    rewrite (elf_scan_later malloc_ok r). reflexivity.
  - unfold extract_macho_buildinfo. destruct os; [|reflexivity].
    change (rewind f) with (later (reads f) (rewind (fopen_rb (contents f)))).
    set (g := rewind (fopen_rb (contents f))). clearbody g.
    set (r := reads f). clearbody r. clear f.
    rewrite (fread_later r).
    destruct (fread sizeof_mach_header_64 1 g) as [[mh n] f1]. cbn [fst snd].
    destruct (negb (n =? 1)); [reflexivity|].
    destruct (_ && _); [reflexivity|].
    rewrite !for_loop_unary.
    rewrite (for_nat_map (fun _ => True) (macho_command malloc_ok)
               (later r) (later_result r)
               (fun s _ => conj (macho_command_later malloc_ok r s)
                  match macho_command malloc_ok s as x
                    return match x with Continue _ => True | Return _ => True end
                  with Continue _ => I | Return _ => I end)
               _ f1 I).
    destruct (for_nat _ _ f1) as [f2|[o f2]]; reflexivity.
Qed.


(** The section record behind the content of a well-formed file. *)
Lemma content_record (fmt : format) (file B : list byte) :
  Spec.content fmt file = Some B ->
  exists s, Spec.first_buildinfo fmt file = Some s
    /\ 0 <= record_offset fmt s
    /\ record_offset fmt s + record_size fmt s <= Z.of_nat (List.length file)
    /\ Z.of_nat (List.length file) < 2 ^ 63
    /\ B = slice (record_offset fmt s) (record_size fmt s) file.
Proof.
  intros Hc. destruct fmt; simpl in *.
  - unfold Spec.elf_content in Hc.
    destruct (Spec.elf_buildinfo file) as [s|] eqn:Hs; [|discriminate].
    destruct (Z.leb_spec (sh_offset s + sh_size s)
                (Z.of_nat (List.length file))) as [Hin|]; [|discriminate].
    injection Hc as <-.
    assert (Hlen : Z.of_nat (List.length file) < 2 ^ 63).
    { unfold Spec.elf_buildinfo in Hs.
      destruct (Z.ltb_spec (Z.of_nat (List.length file)) (2 ^ 63));
        [assumption|discriminate]. }
    pose proof (field_nonneg 24 8 s) as Ho. fold (sh_offset s) in Ho.
    pose proof (field_nonneg 32 8 s) as Hz. fold (sh_size s) in Hz.
    exists s. rewrite to_long_small by lia. repeat split; try lia.
  - unfold Spec.macho_content in Hc.
    destruct (Spec.macho_buildinfo file) as [s|] eqn:Hs; [|discriminate].
    destruct (Z.leb_spec (sect_offset s + sect_size s)
                (Z.of_nat (List.length file))) as [Hin|]; [|discriminate].
    injection Hc as <-.
    assert (Hlen : Z.of_nat (List.length file) < 2 ^ 63).
    { unfold Spec.macho_buildinfo in Hs.
      destruct (Z.ltb_spec (Z.of_nat (List.length file)) (2 ^ 63));
        [assumption|discriminate]. }
    pose proof (field_nonneg 48 4 s) as Ho. fold (sect_offset s) in Ho.
    exists s. repeat split; try lia.
Qed.

(** A well-formed file starts with a magic its build dispatches. *)
Lemma first_buildinfo_magic (fmt : format) (file s : list byte) :
  Spec.first_buildinfo fmt file = Some s ->
  4 <= Z.of_nat (List.length file)
  /\ dispatches (build_for fmt) (le_decode (slice 0 4 file)) = true.
Proof.
  destruct fmt; simpl.
  - unfold Spec.elf_buildinfo, Spec.elf_header, sizeof_Elf64_Ehdr, SELFMAG.
    intros H.
    destruct (_ <? _); [|discriminate].
    destruct (Z.leb_spec 64 (Z.of_nat (List.length file))); [|discriminate].
    destruct (bytes_eqb (slice 0 4 (slice 0 64 file)) ELFMAG) eqn:Hm;
      [|discriminate].
    apply bytes_eqb_eq in Hm. rewrite slice_slice in Hm by lia.
    change (0 + 0) with 0 in Hm. rewrite Hm. split; [lia|reflexivity].
  - unfold Spec.macho_buildinfo, sizeof_mach_header_64. intros H.
    destruct (_ <? _); [|discriminate].
    destruct (Z.leb_spec 32 (Z.of_nat (List.length file))); [|discriminate].
    destruct (Z.eqb_spec (mh_magic (slice 0 32 file)) MH_MAGIC_64) as [Hm|];
      [|discriminate].
    unfold mh_magic, field in Hm. rewrite slice_slice in Hm by lia.
    change (0 + 0) with 0 in Hm. rewrite Hm. split; [lia|reflexivity].
Qed.

(** X14.  From the command line to standard output: given the path of a
    well-formed file of the format its build handles, with a section of the
    requested name whose content [B] is not empty, the program calls the
    extractor of that format, once, returns 0 and writes the bytes of [B]
    before its first NUL, although [main] has read four bytes of the stream
    before the extractor starts. *)
Theorem main_extracts (fmt : format) (malloc_ok : Z -> bool)
  (argv0 path : string) (fs : filesystem) (file B : list byte) :
  fs path = File file ->
  Spec.content fmt file = Some B ->
  B <> [] ->
  (forall n, n <= Z.of_nat (List.length file) + 1 -> malloc_ok n = true) ->
  result (main (build_for fmt) malloc_ok argv0 [path] fs)
    = Exit 0 (c_string B) ""
  /\ calls (main (build_for fmt) malloc_ok argv0 [path] fs)
     = [callee_of (build_for fmt)].
Proof.
  intros Hfs Hc HB Hm.
  destruct (content_record fmt file B Hc)
    as (s & Hs & Ho & Hin & Hlen & ->).
  destruct (first_buildinfo_magic fmt file s Hs) as [H4 Hd].
  split.
  - assert (He : fst (extractor fmt (build_for fmt) malloc_ok
                        (mkFILE file 4 1))
                 = Exit 0 (c_string (slice (record_offset fmt s)
                                       (record_size fmt s) file)) "").
    { rewrite extractor_rewinds. cbn [contents].
      destruct (extractor_first fmt malloc_ok file s Hs) as (f' & Hf & ->).
      { intros n Hn. apply Hm. lia. }
      apply slice_nonempty in HB. subst file.
      apply print_section_ok; try assumption. apply Hm. lia. }
    unfold main. rewrite Hfs. unfold fopen_rb.
    rewrite fread_full; cbn [contents position reads]; try lia.
    change (negb (1 =? 1)) with false. cbv iota. change (4 * 1) with 4.
    change (0 + 4) with 4.
    destruct fmt; cbn [build_for dispatches extractor] in *.
    + rewrite Hd.
      destruct (extract_elf_buildinfo OtherOS malloc_ok (mkFILE file 4 1)).
      exact He.
    + rewrite Hd.
      destruct (extract_macho_buildinfo MacOS malloc_ok (mkFILE file 4 1)).
      exact He.
  - rewrite main_calls, Hfs, Hd.
    destruct (Z.leb_spec 4 (Z.of_nat (List.length file))); [reflexivity|lia].
Qed.

Lemma main_extracts_witness :
  result (main MacOS always "extract-buildinfo" ["a.out"] (one_file macho_file))
    = Exit 0 payload ""
  /\ calls (main MacOS always "extract-buildinfo" ["a.out"]
                 (one_file macho_file)) = [Call_extract_macho].
Proof.
  apply (main_extracts MachO64 always "extract-buildinfo" "a.out"
           (one_file macho_file) macho_file payload).
  - reflexivity.
  - vm_compute. reflexivity.
  - discriminate.
  - reflexivity.
Defined.

(** X15.  In an ELF64 file shorter than [2^63] bytes whose header is
    valid and whose [e_shoff] is at most the length of the file, a count
    [e_shnum > 0] of more section headers than the file holds from
    [e_shoff] on makes the ELF extractor return 1 with "Failed to read
    section headers", when the allocation of the table succeeds: the count
    is checked by the read. *)
Theorem elf_table_truncated (malloc_ok : Z -> bool) (file : list byte) :
  let h := Spec.elf_header file in
  64 <= Z.of_nat (List.length file) < 2 ^ 63 ->
  slice 0 SELFMAG h = ELFMAG ->
  e_shoff h <= Z.of_nat (List.length file) ->
  0 < e_shnum h ->
  Z.of_nat (List.length file) < e_shoff h + 64 * e_shnum h ->
  malloc_ok (e_shnum h * 64) = true ->
  fst (extract_elf_buildinfo OtherOS malloc_ok (fopen_rb file)) =
  Exit 1 [] (line "Failed to read section headers").
Proof.
  intros h Hlen Hmag Hoff Hnum Hout Hm.
  pose proof (field_nonneg 40 8 h) as Hshoff. fold (e_shoff h) in Hshoff.
  unfold extract_elf_buildinfo, rewind, fopen_rb.
  unfold sizeof_Elf64_Ehdr, sizeof_Elf64_Shdr.
  rewrite fread_full; cbn [contents position reads]; try lia.
  change (slice 0 (64 * 1) file) with h. change (0 + 64 * 1) with 64.
  change (negb (1 =? 1)) with false. cbv iota.
  unfold e_ident. rewrite slice_slice by (unfold SELFMAG; lia).
  change (0 + 0) with 0. rewrite Hmag. cbn [bytes_eqb ELFMAG].
  change (negb _) with false at 1. cbv iota.
  rewrite to_long_small by lia. rewrite fseek_nonneg by lia.
  rewrite Hm. cbn [negb].
  unfold fread. cbn [contents position reads Z.eqb].
  set (got := Z.min _ _).
  assert (Hgot : 0 <= got < 64 * e_shnum h) by (unfold got; lia).
  assert (Hdiv : got / 64 < e_shnum h)
    by (apply Z.div_lt_upper_bound; lia).
  destruct (Z.eqb_spec (got / 64) (e_shnum h)); [lia|]. reflexivity.
Qed.

Lemma elf_table_truncated_witness :
  fst (extract_elf_buildinfo OtherOS always
         (fopen_rb (Elf64_Ehdr 64 3 1 ++ Elf64_Shdr 0 0 0))) =
  Exit 1 [] (line "Failed to read section headers").
Proof.
  apply (elf_table_truncated always (Elf64_Ehdr 64 3 1 ++ Elf64_Shdr 0 0 0)).
  - vm_compute. split; [discriminate|reflexivity].
  - vm_compute. reflexivity.
  - vm_compute. discriminate.
  - vm_compute. reflexivity.
  - vm_compute. reflexivity.
  - reflexivity.
Defined.
